(** * game_cart: the request handlers of [src/game_cart/app.py]

    A shallow embedding of the Flask handlers of the game cart service and
    of the collaborators they call (the account store, the cart store and
    the catalog client), followed by the properties of the specification
    that concern them.

    Layout:
    - [Py]       the Python values a decoded JSON body is made of, with the
                 builtins the handlers apply to them ([not], [dict.get],
                 [in], subscription, [int], [str]);
    - [Flask]    responses, [jsonify] and [make_response];
    - [Password], [Account], [Cart], [Catalog]
                 the collaborators, which the handlers import from modules
                 outside [app.py];
    - [App]      the handlers, one definition per route;
    - the properties. *)

From Stdlib Require Import String Ascii List ZArith QArith Bool Lia.
From Stdlib Require Import PrimFloat.
From Stdlib Require Import Permutation DecimalString.
From Stdlib Require DecimalPos.
Import ListNotations.

Set Warnings "-register-all,-inexact-float".

Local Open Scope string_scope.
Local Open Scope Z_scope.

(** ** Exceptions and fallible computations *)

(** The exception classes that occur in the handlers' runs.  The handlers
    only ever tell [ValueError] from the rest ([except ValueError] before
    [except Exception]). *)
Inductive exn_class : Type :=
| ValueError
| TypeError
| AttributeError
| OverflowError
| KeyError
| UnboundLocalError
| IntegrityError
| UpstreamError.

Record exn : Type := Exn { exn_cls : exn_class; exn_msg : string }.

(** [str(e)] *)
Definition str_exn (e : exn) : string := exn_msg e.

(** [isinstance(e, ValueError)], the test of an [except ValueError] clause. *)
Definition is_value_error (e : exn) : bool :=
  match exn_cls e with
  | ValueError => true
  | _ => false
  end.

Inductive result (A : Type) : Type :=
| Return (a : A)
| Raise (e : exn).

Arguments Return {A} a.
Arguments Raise {A} e.

Definition bind {A B : Type} (m : result A) (k : A -> result B) : result B :=
  match m with
  | Return a => k a
  | Raise e => Raise e
  end.

Declare Scope py_scope.
Delimit Scope py_scope with py.
Notation "x <- m ;; k" := (bind m (fun x => k))
  (at level 61, m at next level, right associativity) : py_scope.
Notation "' pat <- m ;; k" := (bind m (fun x => match x with pat => k end))
  (at level 61, pat pattern, m at next level, right associativity) : py_scope.

(** ** Python values *)

Module Py.

(** A Python [float]: the exact value of a finite double together with the
    text [str] prints for it, or one of the non-finite values, which the
    [json] module also decodes ([Infinity], [-Infinity], [NaN]). *)
Inductive pyfloat : Type :=
| FFinite (q : Q) (shown : string)
| FInf (negative : bool)
| FNaN.

(** What [request.get_json()] returns: [None], [bool], [int], [float],
    [str], [list] and [dict] with string keys.  A dictionary is kept as
    the list of its items; [json] keeps the last of several equal keys, so
    the keys of a decoded body are distinct.  A [str] is a sequence of
    ASCII characters: bodies with other characters are outside this
    model. *)
Inductive value : Type :=
| PNone
| PBool (b : bool)
| PInt (n : Z)
| PFloat (f : pyfloat)
| PStr (s : string)
| PList (items : list value)
| PDict (items : list (string * value)).

(** [type(v).__name__] *)
Definition type_name (v : value) : string :=
  match v with
  | PNone => "NoneType"
  | PBool _ => "bool"
  | PInt _ => "int"
  | PFloat _ => "float"
  | PStr _ => "str"
  | PList _ => "list"
  | PDict _ => "dict"
  end.

(** [bool(v)]: the truth value tested by [if not v]. *)
Definition truthy (v : value) : bool :=
  match v with
  | PNone => false
  | PBool b => b
  | PInt n => negb (n =? 0)
  | PFloat (FFinite q _) => negb (Qnum q =? 0)
  | PFloat _ => true
  | PStr s => negb (s =? "")%string
  | PList l => match l with [] => false | _ => true end
  | PDict l => match l with [] => false | _ => true end
  end.

(** Lookup of a key among the items of a dictionary. *)
Fixpoint lookup (k : string) (items : list (string * value)) : option value :=
  match items with
  | [] => None
  | (k', v) :: rest => if (k =? k')%string then Some v else lookup k rest
  end.

(** [data.get(k)]: only a [dict] has the method; a missing key gives
    [None]. *)
Definition get (data : value) (k : string) : result value :=
  match data with
  | PDict items =>
      match lookup k items with
      | Some v => Return v
      | None => Return PNone
      end
  | _ => Raise (Exn AttributeError
                  ("'" ++ type_name data ++ "' object has no attribute 'get'"))
  end.

(** [needle in hay] for two strings: [needle] occurs in [hay]. *)
Fixpoint contains (needle hay : string) : bool :=
  if String.prefix needle hay then true
  else match hay with
       | EmptyString => false
       | String _ rest => contains needle rest
       end.

(** [k in data] for a string [k]: key membership for a [dict], element
    membership for a [list], substring for a [str]; the other types are no
    containers. *)
Definition has (k : string) (data : value) : result bool :=
  match data with
  | PDict items =>
      Return (match lookup k items with Some _ => true | None => false end)
  | PList items =>
      Return (existsb (fun v => match v with
                                | PStr s => (s =? k)%string
                                | _ => false
                                end) items)
  | PStr s => Return (contains k s)
  | _ => Raise (Exn TypeError
                  ("argument of type '" ++ type_name data ++ "' is not iterable"))
  end.

(** [data[k]] for a string [k]. *)
Definition getitem (data : value) (k : string) : result value :=
  match data with
  | PDict items =>
      match lookup k items with
      | Some v => Return v
      | None => Raise (Exn KeyError ("'" ++ k ++ "'"))
      end
  | PList _ =>
      Raise (Exn TypeError "list indices must be integers or slices, not str")
  | PStr _ =>
      Raise (Exn TypeError "string indices must be integers, not 'str'")
  | _ =>
      Raise (Exn TypeError
               ("'" ++ type_name data ++ "' object is not subscriptable"))
  end.

(** *** [str] and [repr] *)

(** Decimal notation of an integer, as [str] prints an [int]. *)
Definition dec (n : Z) : string := NilZero.string_of_int (Z.to_int n).

Definition hex_digit (n : nat) : ascii :=
  match n with
  | 0 => "0" | 1 => "1" | 2 => "2" | 3 => "3" | 4 => "4" | 5 => "5"
  | 6 => "6" | 7 => "7" | 8 => "8" | 9 => "9" | 10 => "a" | 11 => "b"
  | 12 => "c" | 13 => "d" | 14 => "e" | _ => "f"
  end%nat%char.

Definition quote_single : ascii := "'"%char.
Definition quote_double : ascii := ascii_of_nat 34.
Definition backslash : ascii := ascii_of_nat 92.

Fixpoint mentions (c : ascii) (s : string) : bool :=
  match s with
  | EmptyString => false
  | String c' rest => if Ascii.eqb c c' then true else mentions c rest
  end.

(** The escapes of [repr] for the characters of a string enclosed in the
    quote [q]. *)
Fixpoint escape (q : ascii) (s : string) : string :=
  match s with
  | EmptyString => EmptyString
  | String c rest =>
      let n := nat_of_ascii c in
      (if Ascii.eqb c backslash then String backslash (String backslash EmptyString)
       else if Ascii.eqb c q then String backslash (String q EmptyString)
       else if (n =? 10)%nat then String backslash "n"
       else if (n =? 13)%nat then String backslash "r"
       else if (n =? 9)%nat then String backslash "t"
       else if ((n <? 32) || (n =? 127))%nat
            then String backslash
                   (String "x" (String (hex_digit (n / 16))
                                  (String (hex_digit (n mod 16)) EmptyString)))
       else String c EmptyString)
      ++ escape q rest
  end.

(** [repr(s)] of a string: single quotes, unless the string has a single
    quote and no double quote. *)
Definition repr_str (s : string) : string :=
  let q := if mentions quote_single s && negb (mentions quote_double s)
           then quote_double else quote_single in
  String q (escape q s ++ String q EmptyString).

Definition str_float (f : pyfloat) : string :=
  match f with
  | FFinite _ shown => shown
  | FInf false => "inf"
  | FInf true => "-inf"
  | FNaN => "nan"
  end.

Fixpoint join (parts : list string) : string :=
  match parts with
  | [] => ""
  | [p] => p
  | p :: rest => p ++ ", " ++ join rest
  end.

(** [repr(v)] *)
Fixpoint repr (v : value) : string :=
  match v with
  | PNone => "None"
  | PBool true => "True"
  | PBool false => "False"
  | PInt n => dec n
  | PFloat f => str_float f
  | PStr s => repr_str s
  | PList items => "[" ++ join (map repr items) ++ "]"
  | PDict items =>
      "{" ++ join (map (fun kv => match kv with
                                  | (k, x) => repr_str k ++ ": " ++ repr x
                                  end) items) ++ "}"
  end.

(** [str(v)], which is also how an f-string renders [{v}]. *)
Definition str (v : value) : string :=
  match v with
  | PStr s => s
  | _ => repr v
  end.

(** *** [int] *)

(** The white space [int] strips from both ends of an ASCII string: tab,
    line feed, vertical tab, form feed, carriage return and space. *)
Definition is_space (c : ascii) : bool :=
  let n := nat_of_ascii c in
  ((9 <=? n) && (n <=? 13) || (n =? 32))%nat.

Definition digit_of (c : ascii) : option Z :=
  let n := nat_of_ascii c in
  if ((48 <=? n) && (n <=? 57))%nat then Some (Z.of_nat (n - 48)) else None.

Fixpoint lstrip (l : list ascii) : list ascii :=
  match l with
  | c :: rest => if is_space c then lstrip rest else l
  | [] => []
  end.

Definition strip (l : list ascii) : list ascii :=
  rev (lstrip (rev (lstrip l))).

(** The digits of a decimal literal: at least one digit, and an
    underscore only between two digits. *)
Fixpoint digits (acc : Z) (after_digit : bool) (l : list ascii) : option Z :=
  match l with
  | [] => if after_digit then Some acc else None
  | c :: rest =>
      match digit_of c with
      | Some d => digits (acc * 10 + d) true rest
      | None =>
          if Ascii.eqb c "_" && after_digit then digits acc false rest
          else None
      end
  end.

Definition is_digit (c : ascii) : bool :=
  match digit_of c with Some _ => true | None => false end.

(** The digits and underscores a literal starts with, and what follows
    them. *)
Fixpoint run (l : list ascii) : list ascii * list ascii :=
  match l with
  | c :: rest =>
      if is_digit c || Ascii.eqb c "_"
      then let (r, tail) := run rest in (c :: r, tail)
      else ([], l)
  | [] => ([], [])
  end.

(** What [int] makes of a string: a number, no literal at all, or a
    literal of more digits than the interpreter converts. *)
Inductive literal : Type :=
| Value (n : Z)
| Invalid
| TooLong (count : nat).

(** [sys.get_int_max_str_digits()], as the interpreter starts with. *)
Definition max_str_digits : nat := 4300.

(** The literal without its sign: the digits are read and counted first,
    and only a literal that is short enough is looked at to its end. *)
Definition unsigned (l : list ascii) : literal :=
  let (r, tail) := run l in
  match digits 0 false r with
  | None => Invalid
  | Some n =>
      let count := length (filter is_digit r) in
      if (max_str_digits <? count)%nat then TooLong count
      else match tail with
           | [] => Value n
           | _ => Invalid
           end
  end.

Definition negate (x : literal) : literal :=
  match x with
  | Value n => Value (- n)
  | _ => x
  end.

(** [int(s)] for an ASCII string, base 10: optional white space, an
    optional sign, digits.  Strings are taken to be ASCII throughout: the
    white space and the digits of the other Unicode blocks are outside
    this model. *)
Definition int_of_string (s : string) : literal :=
  match strip (list_ascii_of_string s) with
  | c :: rest =>
      if Ascii.eqb c "-" then negate (unsigned rest)
      else if Ascii.eqb c "+" then unsigned rest
      else unsigned (c :: rest)
  | [] => Invalid
  end.

Definition int_type_error (v : value) : exn :=
  Exn TypeError
    ("int() argument must be a string, a bytes-like object or a real number, not '"
     ++ type_name v ++ "'").

(** [int(v)]: a [float] is truncated towards zero. *)
Definition int (v : value) : result Z :=
  match v with
  | PBool b => Return (if b then 1 else 0)
  | PInt n => Return n
  | PFloat (FFinite q _) => Return (Z.quot (Qnum q) (Zpos (Qden q)))
  | PFloat (FInf _) =>
      Raise (Exn OverflowError "cannot convert float infinity to integer")
  | PFloat FNaN =>
      Raise (Exn ValueError "cannot convert float NaN to integer")
  | PStr s =>
      match int_of_string s with
      | Value n => Return n
      | Invalid =>
          Raise (Exn ValueError
                   ("invalid literal for int() with base 10: " ++ repr_str s))
      | TooLong count =>
          Raise (Exn ValueError
                   ("Exceeds the limit (" ++ dec (Z.of_nat max_str_digits)
                    ++ " digits) for integer string conversion: value has "
                    ++ dec (Z.of_nat count)
                    ++ " digits; use sys.set_int_max_str_digits() to increase the limit"))
      end
  | PNone | PList _ | PDict _ => Raise (int_type_error v)
  end.

End Py.


(** ** Records of the two tables *)

(** A row of the games table; the catalog reports games in the same
    shape.  The price is a Python [float], a binary64 number. *)
Record game : Type := Game { game_id : Z; game_name : string; game_price : float }.

(** A value of [sum] over prices: the [int] 0 it starts from, or a
    [float]. *)
Inductive number : Type :=
| IntZero
| Float (x : float).

(** A row of the users table. *)
Record user : Type := User { user_name : string; user_salt : string; user_hash : string }.

(** The database behind [db.session]: the two tables, rows in insertion
    order, and the number of salts drawn so far from the random source. *)
Record store : Type := Store { users : list user; games : list game; draws : nat }.

Definition empty_store : store := Store [] [] 0.

(** ** Flask: responses *)

Module Flask.

(** The values the handlers put under the keys of a response dictionary. *)
Inductive field : Type :=
| FStr (s : string)
| FVal (v : Py.value)
| FNum (x : number)
| FGames (gs : list game).

Definition body : Type := list (string * field).

(** The two kinds of object the handlers hand to [jsonify]: a dictionary
    display [{k: v, ...}] and a set display [{a, b}]. *)
Inductive pyobj : Type :=
| ODict (items : body)
| OSet (members : list string).

Definition set_not_serializable : exn :=
  Exn TypeError "Object of type set is not JSON serializable".

(** [jsonify(o)]: a set is not JSON serializable. *)
Definition jsonify (o : pyobj) : result body :=
  match o with
  | ODict items => Return items
  | OSet _ => Raise set_not_serializable
  end.

Record response : Type := Response { resp_body : body; status : nat }.

(** [make_response(body, status)] *)
Definition make_response (b : body) (code : nat) : response := Response b code.

End Flask.

Import Flask.

(** ** The collaborators of the handlers *)

(** *** Password module *)

(** Modelled from the spec: [game_cart.models.user_model] is not part of
    the sources at hand.  Section 4.1 has a random source of salts and a
    deterministic derivation [hash_password] of a hash from a password and
    a salt; which derivation is left open, so it is a parameter here.
    [urandom n] is the [n]-th salt the random source delivers. *)
Class Password : Type :=
  { urandom : nat -> string;
    hash_password : string -> string -> string }.

Section PasswordModule.
Context {P : Password}.

(** Modelled from the spec: section 4.1, [generate_salt] draws the next
    value of the random source. *)
Definition generate_salt (drawn : nat) : string := urandom drawn.

(** Modelled from the spec: section 4.1, [verify_password] recomputes the
    hash from the password and the stored salt and compares it with the
    expected hash. *)
Definition verify_password (password salt expected : string) : bool :=
  (hash_password password salt =? expected)%string.

End PasswordModule.

(** *** Account store *)

Module User.
Section AccountStore.
Context {P : Password}.

(** Modelled from the spec: the failures of the account store (sections
    4.2 and 7).  [UserNotFound] is the [ValueError] that the handler of
    [/update-password] answers with 401 (lines 144-146); [DuplicateUser]
    is a violated uniqueness constraint; the texts are placeholders. *)
Definition not_found (username : Py.value) : exn :=
  Exn ValueError ("User " ++ Py.str username ++ " not found").

Definition duplicate (username : string) : exn :=
  Exn IntegrityError ("User with username '" ++ username ++ "' already exists").

Definition invalid_input : exn :=
  Exn ValueError "username and password must not be empty".

(** Modelled from the spec: username and password are strings (sections
    3 and 4.2); a value of another type can be neither stored as a
    username nor hashed. *)
Definition not_a_string (what : string) (v : Py.value) : exn :=
  Exn TypeError (what ++ " must be str, not " ++ Py.type_name v).

(** Modelled from the spec: the row of a username, of which there is at
    most one (section 3).  Usernames are strings, so a value of another
    type names no user. *)
Definition find_user (username : Py.value) (db : store) : option user :=
  match username with
  | Py.PStr u => find (fun r => (user_name r =? u)%string) (users db)
  | _ => None
  end.

(** Modelled from the spec: the row of the user is replaced as a whole
    (section 4.2, no old credential is left). *)
Definition put_user (r : user) (db : store) : store :=
  Store (map (fun r' => if (user_name r' =? user_name r)%string then r else r')
           (users db))
        (games db) (draws db).

(** Modelled from the spec: section 4.2, [create_user] fails with
    [InvalidInput] if username or password is empty and with
    [DuplicateUser] if the username already exists; otherwise it generates
    a salt, computes the hash and persists a new row. *)
Definition create_user (username password : Py.value) (db : store) : result store :=
  match username, password with
  | Py.PStr u, Py.PStr p =>
      if ((u =? "") || (p =? ""))%string then Raise invalid_input
      else match find_user username db with
           | Some _ => Raise (duplicate u)
           | None =>
               let salt := generate_salt (draws db) in
               Return (Store (users db ++ [User u salt (hash_password p salt)])
                         (games db) (S (draws db)))
           end
  | Py.PStr _, _ => Raise (not_a_string "password" password)
  | _, _ => Raise (not_a_string "username" username)
  end.

(** Modelled from the spec: section 4.2, [check_password] fails with
    [UserNotFound] if no such username exists; otherwise it returns
    whether the password verifies against the stored salt and hash. *)
Definition check_password (username password : Py.value) (db : store) : result bool :=
  match find_user username db with
  | None => Raise (not_found username)
  | Some r =>
      match password with
      | Py.PStr p => Return (verify_password p (user_salt r) (user_hash r))
      | _ => Raise (not_a_string "password" password)
      end
  end.

(** Modelled from the spec: section 4.2, [update_password] fails with
    [UserNotFound] if the username does not exist; otherwise it
    regenerates salt and hash and replaces the old credential. *)
Definition update_password (username new_password : Py.value) (db : store) : result store :=
  match find_user username db with
  | None => Raise (not_found username)
  | Some r =>
      match new_password with
      | Py.PStr p =>
          let salt := generate_salt (draws db) in
          Return (put_user (User (user_name r) salt (hash_password p salt))
                    (Store (users db) (games db) (S (draws db))))
      | _ => Raise (not_a_string "password" new_password)
      end
  end.

End AccountStore.
End User.

(** *** Cart store *)

Module Games.

(** Modelled from the spec: the failures of the cart store (sections 4.3
    and 7).  [GameNotFound] is the [ValueError] with the message that the
    handler of [/delete-game] compares with (line 264); [DuplicateGame] is
    a violated primary key; the other texts are placeholders. *)
Definition not_found (id : Z) : exn :=
  Exn ValueError ("Game with id " ++ Py.dec id ++ " not found").

Definition duplicate (id : Z) : exn :=
  Exn IntegrityError ("Game with id " ++ Py.dec id ++ " already exists").

Definition invalid_input : exn :=
  Exn ValueError "id must be a positive integer and price must not be negative".

Definition has_id (id : Z) (g : game) : bool := game_id g =? id.

Definition negative (p : float) : bool := PrimFloat.ltb p 0%float.

(** Modelled from the spec: [game_cart.models.game_model] is not part of
    the sources at hand.  Section 4.3, [create_game] fails with
    [InvalidInput] if the price is negative or the id is not a positive
    integer, and with [DuplicateGame] if a game with this id exists;
    otherwise it persists a new row. *)
Definition create_game (id : Z) (name : string) (price : float) (db : store) : result store :=
  if (id <=? 0) || negative price then Raise invalid_input
  else if existsb (has_id id) (games db) then Raise (duplicate id)
  else Return (Store (users db) (games db ++ [Game id name price]) (draws db)).

(** Modelled from the spec: section 4.3, [delete_game] fails with
    [GameNotFound] if no row with that id exists; otherwise it removes
    the row. *)
Definition delete_game (id : Z) (db : store) : result store :=
  if existsb (has_id id) (games db)
  then Return (Store (users db)
                 (filter (fun g => negb (has_id id g)) (games db)) (draws db))
  else Raise (not_found id).

(** Modelled from the spec: section 4.3, [get_all_games] returns all
    persisted games, in insertion order. *)
Definition get_all_games (db : store) : result (list game) :=
  Return (games db).

End Games.

(** *** Catalog client *)

(** Modelled from the spec: [game_cart.utils.cheapsharkapi] is not part of
    the sources at hand.  Section 4.4: [search_for_games] gives a sequence
    of games, [get_game_info] a game or the empty result ([None] here,
    [{}] in the handler); both are calls to a remote service and may
    fail. *)
Record catalog : Type :=
  { search_for_games : string -> result (list game);
    get_game_info : Z -> result (option game) }.

(** ** The handlers of [app.py] *)

(** A handler takes the decoded body of the request ([request.get_json()],
    for a request that has a JSON body) and the database, and gives the
    response, or the exception that leaves the handler, together with the
    database after the request.  A store operation that fails leaves the
    database as it was.  Calls of [app.logger] have no part in the result
    and are left out. *)

Module App.

Local Open Scope py_scope.

Definition reply (items : body) (code : nat) : result response :=
  b <- jsonify (ODict items) ;; Return (make_response b code).

(** [GET /health] *)
Definition healthcheck : result response :=
  reply [("status", FStr "healthy")] 200.

Section UserManagement.
Context {P : Password}.

(** [POST /create-account], the [try] block (lines 58-70). *)
Definition create_user_try (data : Py.value) (db : store) : result (response * store) :=
  username <- Py.get data "username" ;;
  password <- Py.get data "password" ;;
  if negb (Py.truthy username) || negb (Py.truthy password) then
    r <- reply [("error", FStr "Invalid input, both username and password are required")] 400 ;;
    Return (r, db)
  else
    db' <- User.create_user username password db ;;
    r <- reply [("status", FStr "user added"); ("username", FVal username)] 201 ;;
    Return (r, db').

(** [POST /create-account] (lines 42-73). *)
Definition create_user (data : Py.value) (db : store) : result response * store :=
  match create_user_try data db with
  | Return (r, db') => (Return r, db')
  | Raise e => (reply [("error", FStr (str_exn e))] 500, db)
  end.

(** The test of line 93:
    [not data or "username" not in data or "password" not in data]. *)
Definition login_invalid (data : Py.value) : result bool :=
  if negb (Py.truthy data) then Return true
  else
    has_username <- Py.has "username" data ;;
    if negb has_username then Return true
    else
      has_password <- Py.has "password" data ;;
      Return (negb has_password).

(** [POST /login], the [try] block (lines 101-106). *)
Definition login_try (username password : Py.value) (db : store) : result response :=
  ok <- User.check_password username password db ;;
  if negb ok then reply [("error", FStr "Invalid username or password")] 401
  else reply [("message",
               FStr ("User " ++ Py.str username ++ " logged in successfully."))] 200.

(** [POST /login], the [try] statement (lines 100-110), once [username]
    and [password] are read from the body: the [except] clause hands a
    set display to [jsonify]. *)
Definition login_check (username password : Py.value) (db : store) : result response :=
  match login_try username password db with
  | Return r => Return r
  | Raise e =>
      b <- jsonify (OSet ["error"; "An unexpected error occurred."]) ;;
      Return (make_response b 500)
  end.

(** [POST /login], lines 93-110, for the body [data] that
    [request.get_json()] returned at line 92.  That call stands outside
    the [try]: a request whose body does not decode ends there, in the
    exception of [get_json], and is no run of this definition. *)
Definition login (data : Py.value) (db : store) : result response :=
  invalid <- login_invalid data ;;
  if invalid then
    reply [("error", FStr "Invalid input, both username and password are required")] 400
  else
    username <- Py.getitem data "username" ;;
    password <- Py.getitem data "password" ;;
    login_check username password db.

(** [POST /update-password], the [try] block (lines 131-143), with the
    binding of the local [username] when the block is left. *)
Definition update_password_try (data : Py.value) (db : store)
  : option Py.value * result (response * store) :=
  match Py.get data "username" with
  | Raise e => (None, Raise e)
  | Return username =>
      (Some username,
       new_password <- Py.get data "newPassword" ;;
       if negb (Py.truthy username) || negb (Py.truthy new_password) then
         r <- reply [("error", FStr "Invalid input, both username and new password are required")] 400 ;;
         Return (r, db)
       else
         db' <- User.update_password username new_password db ;;
         r <- reply [("status", FStr "password changed"); ("username", FVal username)] 201 ;;
         Return (r, db'))
  end.

Definition unbound (name : string) : exn :=
  Exn UnboundLocalError
    ("cannot access local variable '" ++ name
     ++ "' where it is not associated with a value").

(** [POST /update-password] (lines 113-149). *)
Definition update_password (data : Py.value) (db : store) : result response * store :=
  match update_password_try data db with
  | (_, Return (r, db')) => (Return r, db')
  | (username, Raise e) =>
      if is_value_error e then
        (u <- match username with
              | Some u => Return u
              | None => Raise (unbound "username")
              end ;;
         reply [("error", FStr ("user " ++ Py.str u ++ " does not exist"))] 401,
         db)
      else (reply [("error", FStr (str_exn e))] 500, db)
  end.

End UserManagement.

Section GameCart.
Variable api : catalog.

(** [GET /search-games/<keyword>] (lines 158-177). *)
Definition search_games (keyword : string) : result response :=
  match (found <- search_for_games api keyword ;;
         reply [("games", FGames found)] 200) with
  | Return r => Return r
  | Raise e => reply [("error", FStr (str_exn e))] 500
  end.

(** [POST /add-game], the [try] block (lines 198-219). *)
Definition add_game_try (data : Py.value) (db : store) : result (response * store) :=
  id <- Py.get data "id" ;;
  id <- (if negb (Py.truthy id)
         then Raise (Exn ValueError "An id must be specified.")
         else Py.int id) ;;
  info <- get_game_info api id ;;
  match info with
  | None =>
      r <- reply [("error", FStr ("id " ++ Py.dec id ++ " does not correspond to a game"))] 404 ;;
      Return (r, db)
  | Some (Game game_id name price) =>
      db' <- Games.create_game game_id name price db ;;
      r <- reply [("status", FStr "game added"); ("game", FStr name)] 201 ;;
      Return (r, db')
  end.

(** [POST /add-game] (lines 180-225). *)
Definition add_game (data : Py.value) (db : store) : result response * store :=
  match add_game_try data db with
  | Return (r, db') => (Return r, db')
  | Raise e =>
      if is_value_error e
      then (reply [("error", FStr (str_exn e))] 400, db)
      else (reply [("error", FStr (str_exn e))] 500, db)
  end.

End GameCart.

(** [DELETE /delete-game], the [try] block (lines 246-261), with the
    binding of the local [id] when the block is left: unbound, the value
    read from the body, or the integer it was converted to. *)
Definition delete_game_try (data : Py.value) (db : store)
  : option Py.value * result (response * store) :=
  match Py.get data "id" with
  | Raise e => (None, Raise e)
  | Return id =>
      if negb (Py.truthy id)
      then (Some id, Raise (Exn ValueError "An id must be specified."))
      else match Py.int id with
           | Raise e => (Some id, Raise e)
           | Return n =>
               (Some (Py.PInt n),
                db' <- Games.delete_game n db ;;
                Return (make_response [("status", FStr "game deleted")] 200, db'))
           end
  end.

(** [DELETE /delete-game] (lines 228-269). *)
Definition delete_game (data : Py.value) (db : store) : result response * store :=
  match delete_game_try data db with
  | (_, Return (r, db')) => (Return r, db')
  | (id, Raise e) =>
      if is_value_error e then
        (id <- match id with
               | Some v => Return v
               | None => Raise (unbound "id")
               end ;;
         if (str_exn e =? "Game with id " ++ Py.str id ++ " not found")%string
         then reply [("error", FStr (str_exn e))] 404
         else reply [("error", FStr (str_exn e))] 400,
         db)
      else (reply [("error", FStr (str_exn e))] 500, db)
  end.

(** [GET /get-games] (lines 272-290). *)
Definition get_games (db : store) : result response :=
  match (all <- Games.get_all_games db ;;
         reply [("games", FGames all)] 200) with
  | Return r => Return r
  | Raise e => reply [("error", FStr (str_exn e))] 500
  end.

(** One step of [sum]: [total + price], where the [int] 0 is converted
    to a [float] first. *)
Definition plus (total : number) (price : float) : number :=
  match total with
  | IntZero => Float (0 + price)%float
  | Float x => Float (x + price)%float
  end.

(** [sum(prices)]: the prices added from the left, one after the other,
    starting from the [int] 0. *)
Definition sum (prices : list float) : number :=
  fold_left plus prices IntZero.

(** [GET /get-total-price] (lines 293-313). *)
Definition get_total_price (db : store) : result response :=
  match (all <- Games.get_all_games db ;;
         let price := sum (map game_price all) in
         reply [("price", FNum price)] 200) with
  | Return r => Return r
  | Raise e => reply [("error", FStr (str_exn e))] 500
  end.

End App.

(** ** Vocabulary of the properties *)

Import Py.

(** A password module to run the handlers on concrete requests: the salts
    count up and the hash is the salt followed by the password.  It stands
    in the examples for a salted cryptographic hash. *)
#[local] Instance salted : Password :=
  {| urandom n := dec (Z.of_nat n);
     hash_password password salt := salt ++ ":" ++ password |}.

(** The sum of the character codes of a string. *)
Fixpoint weight (s : string) : nat :=
  match s with
  | EmptyString => 0
  | String c rest => nat_of_ascii c + weight rest
  end.

(** A password module whose salts and hashes have a fixed length, as
    section 3 asks: one byte each, the hash being the sum of the bytes of
    salt and password.  Passwords made of the same characters have the
    same hash. *)
Definition checksum : Password :=
  {| urandom n := String (ascii_of_nat (n mod 256)) EmptyString;
     hash_password password salt :=
       String (ascii_of_nat ((weight salt + weight password) mod 256))
         EmptyString |}.

(** Prices added in binary floating point, from the left, starting from
    zero. *)
Definition float_sum (prices : list float) : float :=
  fold_left PrimFloat.add prices 0%float.

(** The total of a cart: the [int] 0 for no game, else the prices of the
    games added in the order of the rows. *)
Definition price_total (gs : list game) : number :=
  match gs with
  | [] => IntZero
  | _ => Float (float_sum (map game_price gs))
  end.

(** Adding the games of a list to the cart one after the other. *)
Fixpoint add_all (gs : list game) (db : store) : result store :=
  match gs with
  | [] => Return db
  | g :: rest =>
      bind (Games.create_game (game_id g) (game_name g) (game_price g) db)
           (add_all rest)
  end.

(** A game with the id [n] is in the cart. *)
Definition in_cart (n : Z) (db : store) : bool :=
  existsb (Games.has_id n) (games db).

(** What [create_game] asks of a row: a positive id and a price that is
    not negative. *)
Definition acceptable (g : game) : bool :=
  negb ((game_id g <=? 0) || Games.negative (game_price g)).

(** The body carries the id [n]: it is a dictionary with a truthy value
    under ["id"], which [int] converts to [n]. *)
Definition carries_id (data : value) (n : Z) : Prop :=
  exists v, Py.get data "id" = Return v /\ truthy v = true /\ Py.int v = Return n.

(** The rows of the cart have distinct ids and are all acceptable. *)
Definition cart_ok (db : store) : Prop :=
  NoDup (map game_id (games db)) /\
  Forall (fun g => acceptable g = true) (games db).

(** No two rows of the users table have the same username. *)
Definition users_ok (db : store) : Prop :=
  NoDup (map user_name (users db)).

(** The characters of the decimal notation of an unsigned number. *)
Definition numeral (d : Decimal.uint) : list ascii :=
  list_ascii_of_string (NilEmpty.string_of_uint d).

(** The number of digits of the decimal notation of an integer. *)
Definition digit_count (n : Z) : nat :=
  length (list_ascii_of_string (dec (Z.abs n))).

(** The requests of the public interface, one for each route. *)
Inductive request : Type :=
| Health
| CreateAccount (data : value)
| Login (data : value)
| UpdatePassword (data : value)
| SearchGames (keyword : string)
| AddGame (data : value)
| DeleteGame (data : value)
| GetGames
| GetTotalPrice.

(** The database after a request is served, with the catalog as it
    answers at that time. *)
Definition serve {P : Password} (api : catalog) (r : request) (db : store) : store :=
  match r with
  | CreateAccount data => snd (@App.create_user P data db)
  | UpdatePassword data => snd (@App.update_password P data db)
  | AddGame data => snd (App.add_game api data db)
  | DeleteGame data => snd (App.delete_game data db)
  | Health | Login _ | SearchGames _ | GetGames | GetTotalPrice => db
  end.

(** The database after a sequence of requests. *)
Definition serve_all {P : Password} (steps : list (catalog * request)) (db : store)
  : store :=
  fold_left (fun db' step => @serve P (fst step) (snd step) db') steps db.

(** The handler answered with the status [code]. *)
Definition answered (out : result response) (code : nat) : Prop :=
  exists r, out = Return r /\ status r = code.

(** Bodies of requests. *)
Definition credentials (username password : string) : value :=
  PDict [("username", PStr username); ("password", PStr password)].

Definition new_credentials (username password : string) : value :=
  PDict [("username", PStr username); ("newPassword", PStr password)].

Definition with_id (v : value) : value := PDict [("id", v)].

(** The games and catalogs of the examples. *)
Definition chess : game := Game 10 "Chess" 9.99%float.
Definition go : game := Game 11 "Go" 5%float.
Definition pong : game := Game 1 "Pong" 0.1%float.
Definition tetris : game := Game 2 "Tetris" 0.2%float.
Definition snake : game := Game 3 "Snake" 0.3%float.

Definition shelf : catalog :=
  {| search_for_games := fun _ => Return [chess; go];
     get_game_info := fun n =>
       if n =? 10 then Return (Some chess)
       else if n =? 11 then Return (Some go)
       else Return None |}.

Definition offline : catalog :=
  {| search_for_games := fun _ => Raise (Exn UpstreamError "catalog request timed out");
     get_game_info := fun _ => Raise (Exn UpstreamError "catalog request timed out") |}.

(** The database after [alice] registered with the password [pw1]. *)
Definition alice_db : store :=
  Store [User "alice" "0" "0:pw1"] [] 1.

(** Case analysis on the computations a run of a handler goes through. *)
Ltac run_in H :=
  repeat (simpl in H;
          match type of H with
          | context [bind ?m _] => destruct m eqn:?
          | context [match ?m with _ => _ end] => destruct m eqn:?
          | context [if ?b then _ else _] => destruct b eqn:?
          end);
  simpl in H.

(** ** Properties *)

(** *** Auxiliary facts *)

Lemma reply_returns (items : body) (code : nat) :
  App.reply items code = Return (Response items code).
Proof. reflexivity. Qed.

Lemma find_last {A : Type} (f : A -> bool) (l : list A) (x : A) :
  find f l = None -> f x = true -> find f (l ++ [x]) = Some x.
Proof.
  induction l as [|a l IH]; simpl; intros Hn Hx.
  - now rewrite Hx.
  - destruct (f a); [discriminate|]. auto.
Qed.

Section Account.
Context {P : Password}.

(** The outcome of [create_user] on a username and a password that are
    strings. *)
Lemma create_user_returns (u pw : string) (db db' : store) :
  User.create_user (PStr u) (PStr pw) db = Return db' ->
  u <> "" /\ pw <> "" /\ User.find_user (PStr u) db = None /\
  db' = Store (users db ++ [User u (urandom (draws db))
                              (hash_password pw (urandom (draws db)))])
          (games db) (S (draws db)).
Proof.
  unfold User.create_user.
  destruct (u =? "")%string eqn:Hu; simpl; [discriminate|].
  destruct (pw =? "")%string eqn:Hp; simpl; [discriminate|].
  destruct (find (fun r => (user_name r =? u)%string) (users db)) eqn:Hf;
    [discriminate|].
  intros H. injection H as <-.
  apply String.eqb_neq in Hu, Hp. auto.
Qed.

Lemma create_user_accepts (u pw : string) (db : store) :
  u <> "" -> pw <> "" -> User.find_user (PStr u) db = None ->
  exists db', User.create_user (PStr u) (PStr pw) db = Return db'.
Proof.
  intros Hu Hp Hf. unfold User.create_user.
  apply String.eqb_neq in Hu, Hp. rewrite Hu, Hp. simpl.
  simpl in Hf. rewrite Hf. eauto.
Qed.

(** After [create_user], [check_password] compares the hash of the
    password it is given with the hash of the password that was set. *)
Lemma check_after_create (u pw p : string) (db db' : store) :
  User.create_user (PStr u) (PStr pw) db = Return db' ->
  User.check_password (PStr u) (PStr p) db'
  = Return (hash_password p (urandom (draws db))
            =? hash_password pw (urandom (draws db)))%string.
Proof.
  intros H. apply create_user_returns in H as (_ & _ & Hf & ->).
  unfold User.check_password, User.find_user. simpl users.
  simpl in Hf. rewrite (find_last _ _ _ Hf); simpl.
  - reflexivity.
  - apply String.eqb_refl.
Qed.

(** C1, as the account store has it.  For every valid username and
    password, that is, both not empty and the username not yet taken,
    [create_user] succeeds; after it [check_password] with the same
    password returns true, and with another password it returns false
    when the hash of that password under the stored salt differs from
    the stored hash, and true when the two hashes are the same. *)
Theorem create_then_check (u pw : string) (db : store) :
  u <> "" -> pw <> "" -> User.find_user (PStr u) db = None ->
  exists db' salt,
    User.create_user (PStr u) (PStr pw) db = Return db' /\
    option_map user_salt (User.find_user (PStr u) db') = Some salt /\
    User.check_password (PStr u) (PStr pw) db' = Return true /\
    (forall p, hash_password p salt <> hash_password pw salt ->
               User.check_password (PStr u) (PStr p) db' = Return false) /\
    (forall p, hash_password p salt = hash_password pw salt ->
               User.check_password (PStr u) (PStr p) db' = Return true).
Proof.
  intros Hu Hp Hf.
  destruct (create_user_accepts u pw db Hu Hp Hf) as [db' Hc].
  exists db', (urandom (draws db)). split; [exact Hc|]. split.
  { pose proof Hc as Hrow. apply create_user_returns in Hrow as (_ & _ & Hnone & ->).
    unfold User.find_user in *. simpl users.
    rewrite (find_last _ _ _ Hnone); [reflexivity|]. simpl. apply String.eqb_refl. }
  split; [|split].
  - rewrite (check_after_create _ _ _ _ _ Hc). now rewrite String.eqb_refl.
  - intros p Hne. rewrite (check_after_create _ _ _ _ _ Hc). f_equal.
    now apply String.eqb_neq.
  - intros p Heq. rewrite (check_after_create _ _ _ _ _ Hc). f_equal.
    now apply String.eqb_eq.
Qed.

End Account.

Lemma create_then_check_alice :
  exists db' salt,
    @User.create_user checksum (PStr "alice") (PStr "pw1") empty_store = Return db' /\
    option_map user_salt (User.find_user (PStr "alice") db') = Some salt /\
    @User.check_password checksum (PStr "alice") (PStr "pw1") db' = Return true /\
    (forall p, @hash_password checksum p salt <> @hash_password checksum "pw1" salt ->
               @User.check_password checksum (PStr "alice") (PStr p) db'
               = Return false) /\
    (forall p, @hash_password checksum p salt = @hash_password checksum "pw1" salt ->
               @User.check_password checksum (PStr "alice") (PStr p) db'
               = Return true).
Proof.
  apply (@create_then_check checksum "alice" "pw1" empty_store).
  - discriminate.
  - discriminate.
  - reflexivity.
Defined.

(** C1 fails for a hash with collisions, and a hash of a fixed length has
    them: with the hash [checksum], after [alice] registered with the
    password [ab], [check_password] returns true for the other password
    [ba]. *)
Lemma create_then_check_collision :
  exists db',
    @User.create_user checksum (PStr "alice") (PStr "ab") empty_store = Return db' /\
    "ba" <> "ab" /\
    @User.check_password checksum (PStr "alice") (PStr "ba") db' = Return true.
Proof.
  eexists. split; [reflexivity|]. split; [discriminate|reflexivity].
Qed.

(** *** The cart and its total *)

Lemma sum_from (prices : list float) (x : float) :
  fold_left App.plus prices (Float x) = Float (fold_left PrimFloat.add prices x).
Proof.
  revert x. induction prices as [|p prices IH]; intros x; simpl; [reflexivity|].
  apply IH.
Qed.

(** The loop of [sum] over the prices of a cart gives its total. *)
Lemma sum_total (gs : list game) :
  App.sum (map game_price gs) = price_total gs.
Proof.
  destruct gs as [|g gs]; [reflexivity|].
  unfold App.sum, price_total, float_sum. simpl. apply sum_from.
Qed.

Lemma float_sum_app (prices more : list float) :
  float_sum (prices ++ more) = fold_left PrimFloat.add more (float_sum prices).
Proof. apply fold_left_app. Qed.

Lemma create_game_returns (id : Z) (name : string) (price : float) (db db' : store) :
  Games.create_game id name price db = Return db' <->
  acceptable (Game id name price) = true /\ in_cart id db = false /\
  db' = Store (users db) (games db ++ [Game id name price]) (draws db).
Proof.
  unfold Games.create_game, acceptable, in_cart. simpl.
  destruct ((id <=? 0) || Games.negative price); simpl.
  - split; [discriminate|]. intros (H & _). discriminate.
  - destruct (existsb (Games.has_id id) (games db)).
    + split; [discriminate|]. intros (_ & H & _). discriminate.
    + split.
      * intros H. injection H as <-. auto.
      * intros (_ & _ & ->). reflexivity.
Qed.

Lemma in_cart_spec (n : Z) (db : store) :
  in_cart n db = true <-> In n (map game_id (games db)).
Proof.
  unfold in_cart. rewrite existsb_exists, in_map_iff. unfold Games.has_id.
  split; intros (g & H1 & H2); exists g.
  - apply Z.eqb_eq in H2. auto.
  - split; [exact H2|]. now apply Z.eqb_eq.
Qed.

(** [add_all] succeeds exactly on acceptable games with distinct ids that
    are not in the cart yet, and appends them in order. *)
Lemma add_all_returns (gs : list game) (db : store) :
  (exists db', add_all gs db = Return db') <->
  Forall (fun g => acceptable g = true) gs /\
  NoDup (map game_id gs) /\
  (forall g, In g gs -> ~ In (game_id g) (map game_id (games db))).
Proof.
  revert db. induction gs as [|g gs IH]; intros db.
  - simpl. split; [|eauto]. intros _. repeat split; [constructor|constructor|tauto].
  - simpl add_all. destruct g as [id name price]. simpl game_id. simpl game_name.
    simpl game_price. split.
    + intros (db' & H).
      destruct (Games.create_game id name price db) as [db1|] eqn:Hc;
        [|discriminate].
      simpl in H. apply create_game_returns in Hc as (Hok & Hnew & ->).
      destruct (proj1 (IH _) (ex_intro _ db' H)) as (Hall & Hnd & Hfresh).
      simpl games in Hfresh.
      assert (Hnot : ~ In id (map game_id (games db))).
      { rewrite <- in_cart_spec. now rewrite Hnew. }
      repeat split.
      * constructor; assumption.
      * simpl. constructor; [|assumption].
        intros Hin. apply in_map_iff in Hin as (g & Hid & Hg).
        apply (Hfresh g Hg). rewrite map_app, in_app_iff. right. simpl. auto.
      * intros g [<-|Hg]; simpl; [assumption|].
        intros Hin. apply (Hfresh g Hg). rewrite map_app, in_app_iff. now left.
    + intros (Hall & Hnd & Hfresh).
      inversion Hall as [|? ? Hok Hall']; subst.
      inversion Hnd as [|? ? Hnotin Hnd']; subst.
      assert (Hc : Games.create_game id name price db
                   = Return (Store (users db) (games db ++ [Game id name price])
                               (draws db))).
      { apply create_game_returns. repeat split; [assumption|].
        destruct (in_cart id db) eqn:Hin; [|reflexivity].
        apply in_cart_spec in Hin. exfalso.
        apply (Hfresh (Game id name price)); simpl; auto. }
      rewrite Hc. simpl. apply IH. repeat split; [assumption|assumption|].
      intros g Hg. simpl games. rewrite map_app, in_app_iff. simpl.
      intros [Hin|[Heq|[]]].
      * apply (Hfresh g); simpl; auto.
      * apply Hnotin. rewrite Heq. now apply in_map.
Qed.

Lemma add_all_games (gs : list game) (db db' : store) :
  add_all gs db = Return db' -> games db' = (games db ++ gs)%list.
Proof.
  revert db. induction gs as [|g gs IH]; intros db; simpl.
  - intros H. injection H as <-. now rewrite app_nil_r.
  - destruct (Games.create_game _ _ _ db) as [db1|] eqn:Hc; [|discriminate].
    simpl. intros H. rewrite (IH _ H).
    apply create_game_returns in Hc as (_ & _ & ->). simpl.
    destruct g. now rewrite <- app_assoc.
Qed.

(** C2, as the handler has it.  [get_total_price] answers 200 with the
    total of the cart: 0 for the empty cart, else the prices of the games
    added up in binary floating point, from the left in the order of the
    rows, starting from zero.  After games are added to a cart the total
    is the former sum with their prices added in the order of
    insertion. *)
Theorem get_total_price_sum :
  (forall db,
      App.get_total_price db
      = Return (Response [("price", FNum (price_total (games db)))] 200)) /\
  (forall db, games db = [] ->
              App.get_total_price db
              = Return (Response [("price", FNum IntZero)] 200)) /\
  (forall g gs db db1,
      add_all (g :: gs) db = Return db1 ->
      App.get_total_price db1
      = Return (Response
                  [("price",
                    FNum (Float (fold_left PrimFloat.add (map game_price (g :: gs))
                                   (float_sum (map game_price (games db))))))]
                  200)).
Proof.
  assert (Htotal : forall db, App.get_total_price db
            = Return (Response [("price", FNum (price_total (games db)))] 200)).
  { intros db. unfold App.get_total_price, Games.get_all_games. simpl.
    now rewrite sum_total. }
  split; [exact Htotal|]. split.
  - intros db Hempty. rewrite Htotal, Hempty. reflexivity.
  - intros g gs db db1 Hadd.
    rewrite Htotal, (add_all_games _ _ _ Hadd). unfold price_total.
    rewrite map_app, float_sum_app.
    destruct (games db); reflexivity.
Qed.

Lemma get_total_price_chess_go :
  App.get_total_price (Store [] [chess; go] 0)
  = Return (Response
              [("price",
                FNum (Float (fold_left PrimFloat.add (map game_price [chess; go])
                               (float_sum (map game_price (games empty_store))))))]
              200).
Proof.
  apply (proj2 (proj2 get_total_price_sum) chess [go] empty_store
           (Store [] [chess; go] 0)).
  reflexivity.
Defined.

(** C2 fails on the prices 0.1, 0.2 and 0.3: added to the empty cart in
    this order the total is 0.6000000000000001, added in the opposite
    order it is 0.6. *)
Lemma get_total_price_order :
  Permutation [pong; tetris; snake] [snake; tetris; pong] /\
  add_all [pong; tetris; snake] empty_store
  = Return (Store [] [pong; tetris; snake] 0) /\
  add_all [snake; tetris; pong] empty_store
  = Return (Store [] [snake; tetris; pong] 0) /\
  App.get_total_price (Store [] [pong; tetris; snake] 0)
  = Return (Response [("price", FNum (Float 0.6000000000000001%float))] 200) /\
  App.get_total_price (Store [] [snake; tetris; pong] 0)
  = Return (Response [("price", FNum (Float 0.6%float))] 200) /\
  PrimFloat.eqb 0.6000000000000001%float 0.6%float = false.
Proof.
  split; [apply (Permutation_rev [pong; tetris; snake])|].
  repeat split.
Qed.

(** *** What the handlers answer *)

Section Statuses.
Context {P : Password}.
Variable api : catalog.

Lemma create_user_try_status data db r db' :
  App.create_user_try data db = Return (r, db') -> status r = 400%nat \/ status r = 201%nat.
Proof.
  unfold App.create_user_try. intros H. run_in H; inversion H; subst; simpl; auto.
Qed.

Lemma update_password_try_status data db r db' :
  snd (App.update_password_try data db) = Return (r, db') ->
  status r = 400%nat \/ status r = 201%nat.
Proof.
  unfold App.update_password_try. intros H. run_in H; inversion H; subst; simpl; auto.
Qed.

Lemma add_game_try_status data db r db' :
  App.add_game_try api data db = Return (r, db') ->
  status r = 404%nat \/ status r = 201%nat.
Proof.
  unfold App.add_game_try. intros H. run_in H; inversion H; subst; simpl; auto.
Qed.

Lemma delete_game_try_status data db r db' :
  snd (App.delete_game_try data db) = Return (r, db') -> status r = 200%nat.
Proof.
  unfold App.delete_game_try. intros H. run_in H; inversion H; subst; simpl; auto.
Qed.

(** C3, as the handlers have it.  When [create_user], [update_password],
    [search_games], [add_game] or [delete_game] answers with status 500,
    the body is [{"error": str(e)}] for the exception [e] that ended the
    [try] block: the text of the internal exception, no generic message. *)
Theorem server_error_shows_exception :
  (forall data db r,
      fst (App.create_user data db) = Return r -> status r = 500%nat ->
      exists e, App.create_user_try data db = Raise e /\
                resp_body r = [("error", FStr (str_exn e))]) /\
  (forall data db r,
      fst (App.update_password data db) = Return r -> status r = 500%nat ->
      exists e, snd (App.update_password_try data db) = Raise e /\
                resp_body r = [("error", FStr (str_exn e))]) /\
  (forall keyword r,
      App.search_games api keyword = Return r -> status r = 500%nat ->
      exists e, search_for_games api keyword = Raise e /\
                resp_body r = [("error", FStr (str_exn e))]) /\
  (forall data db r,
      fst (App.add_game api data db) = Return r -> status r = 500%nat ->
      exists e, App.add_game_try api data db = Raise e /\
                resp_body r = [("error", FStr (str_exn e))]) /\
  (forall data db r,
      fst (App.delete_game data db) = Return r -> status r = 500%nat ->
      exists e, snd (App.delete_game_try data db) = Raise e /\
                resp_body r = [("error", FStr (str_exn e))]).
Proof.
  repeat split.
  - intros data db r. unfold App.create_user.
    destruct (App.create_user_try data db) as [[r' db']|e] eqn:Htry; simpl.
    + intros H Hs. injection H as ->.
      apply create_user_try_status in Htry. lia.
    + intros H Hs. injection H as <-. eauto.
  - intros data db r. unfold App.update_password.
    destruct (App.update_password_try data db) as [u [[r' db']|e]] eqn:Htry; simpl.
    + intros H Hs. injection H as ->.
      apply (f_equal snd) in Htry. apply update_password_try_status in Htry. lia.
    + destruct (is_value_error e); simpl.
      * destruct u; simpl; intros H Hs; [|discriminate].
        injection H as <-. discriminate.
      * intros H Hs. injection H as <-. eauto.
  - intros keyword r. unfold App.search_games.
    destruct (search_for_games api keyword) as [found|e]; simpl.
    + intros H Hs. injection H as <-. discriminate.
    + intros H Hs. injection H as <-. eauto.
  - intros data db r. unfold App.add_game.
    destruct (App.add_game_try api data db) as [[r' db']|e] eqn:Htry; simpl.
    + intros H Hs. injection H as ->.
      apply add_game_try_status in Htry. lia.
    + destruct (is_value_error e); simpl; intros H Hs; injection H as <-;
        [discriminate|eauto].
  - intros data db r. unfold App.delete_game.
    destruct (App.delete_game_try data db) as [id [[r' db']|e]] eqn:Htry; simpl.
    + intros H Hs. injection H as ->.
      apply (f_equal snd) in Htry. apply delete_game_try_status in Htry. lia.
    + destruct (is_value_error e); simpl.
      * destruct id as [id|]; simpl; [|discriminate].
        destruct (str_exn e =? _)%string; intros H Hs; injection H as <-;
          discriminate.
      * intros H Hs. injection H as <-. eauto.
Qed.

End Statuses.

Lemma server_error_shows_exception_null_body :
  exists e, App.create_user_try PNone empty_store = Raise e /\
            [("error", FStr "'NoneType' object has no attribute 'get'")]
            = [("error", FStr (str_exn e))].
Proof.
  apply (proj1 (server_error_shows_exception shelf) PNone empty_store
           (Response [("error", FStr "'NoneType' object has no attribute 'get'")] 500)).
  - reflexivity.
  - reflexivity.
Defined.

(** C3 fails on a request whose body is the JSON value [null]:
    [data.get] raises [AttributeError], and [POST /create-account] answers
    500 with the text of that exception in the body.  It fails as well
    when [alice] registers a second time: the body of the answer is the
    text of the exception [User.create_user] raised. *)
Lemma server_error_leaks_text :
  (App.create_user_try PNone empty_store
   = Raise (Exn AttributeError "'NoneType' object has no attribute 'get'") /\
   App.create_user PNone empty_store
   = (Return (Response [("error", FStr "'NoneType' object has no attribute 'get'")] 500),
      empty_store)) /\
  (App.create_user_try (credentials "alice" "pw1") alice_db
   = Raise (User.duplicate "alice") /\
   App.create_user (credentials "alice" "pw1") alice_db
   = (Return (Response [("error", FStr (str_exn (User.duplicate "alice")))] 500),
      alice_db)).
Proof. repeat split. Qed.

(** *** Deleting a game *)

(** A [ValueError] of [int] never reads like the "not found" message the
    handler looks for. *)
Lemma int_value_error_text (v : value) (e : exn) (tail : string) :
  Py.int v = Raise e -> is_value_error e = true ->
  (exn_msg e =? String "G" tail)%string = false.
Proof.
  destruct v as [| b | n | [q shown | neg |] | s | items | items]; simpl;
    try discriminate.
  - intros H. injection H as <-. discriminate.
  - intros H. injection H as <-. discriminate.
  - intros H. injection H as <-. reflexivity.
  - destruct (int_of_string s); [discriminate|..];
      intros H; injection H as <-; reflexivity.
  - intros H. injection H as <-. discriminate.
  - intros H. injection H as <-. discriminate.
Qed.

(** [data.get] fails on what is no dictionary, with an [AttributeError]. *)
Lemma get_raises (data : value) (k : string) (e : exn) :
  Py.get data k = Raise e -> exn_cls e = AttributeError.
Proof.
  destruct data as [| b | n | f | s | items | items]; simpl;
    try (intros H; injection H as <-; reflexivity).
  destruct (lookup k items); discriminate.
Qed.

Lemma delete_game_returns (n : Z) (db : store) :
  Games.delete_game n db
  = if in_cart n db
    then Return (Store (users db)
                   (filter (fun g => negb (Games.has_id n g)) (games db))
                   (draws db))
    else Raise (Games.not_found n).
Proof. reflexivity. Qed.

(** The run of [DELETE /delete-game] on a body that carries an id. *)
Lemma delete_game_with_id (data : value) (n : Z) (db : store) :
  carries_id data n ->
  App.delete_game data db
  = if in_cart n db
    then (Return (Response [("status", FStr "game deleted")] 200),
          Store (users db)
            (filter (fun g => negb (Games.has_id n g)) (games db)) (draws db))
    else (Return (Response [("error", FStr (exn_msg (Games.not_found n)))] 404), db).
Proof.
  intros (v & Hget & Htrue & Hint).
  unfold App.delete_game, App.delete_game_try.
  rewrite Hget, Htrue, Hint. simpl. rewrite delete_game_returns.
  destruct (in_cart n db); simpl; [reflexivity|].
  now rewrite String.eqb_refl.
Qed.

(** The run of [DELETE /delete-game] on a body without a usable id. *)
Lemma delete_game_without_id (data : value) (db : store) :
  (forall n, ~ carries_id data n) ->
  exists e code,
    snd (App.delete_game_try data db) = Raise e /\
    App.delete_game data db = (Return (Response [("error", FStr (str_exn e))] code), db) /\
    code = (if is_value_error e then 400 else 500)%nat.
Proof.
  intros Hnone. unfold App.delete_game, App.delete_game_try.
  destruct (Py.get data "id") as [v|e] eqn:Hget.
  - destruct (truthy v) eqn:Htrue; simpl.
    + destruct (Py.int v) as [n|e] eqn:Hint.
      * exfalso. apply (Hnone n). exists v. auto.
      * exists e. destruct (is_value_error e) eqn:Hcls; simpl.
        -- rewrite (int_value_error_text v e _ Hint Hcls).
           eexists. split; [reflexivity|]. split; reflexivity.
        -- eexists. split; [reflexivity|]. split; reflexivity.
    + eexists. eexists. simpl. split; [reflexivity|]. split; reflexivity.
  - exists e. apply get_raises in Hget. unfold is_value_error. rewrite Hget.
    simpl. eexists. split; [reflexivity|]. split; reflexivity.
Qed.

(** C4, as the handler has it.  [DELETE /delete-game] answers
    - 200 with [{"status": "game deleted"}] when the body carries an id
      whose game is in the cart, and removes that game;
    - 404 exactly when the body carries an id and no game with that id is
      in the cart;
    - 400 when the id is missing, falsy, or a value [int] rejects with a
      [ValueError];
    - 500 with the other failures: a body that is no dictionary, or an id
      that [int] rejects otherwise. *)
Theorem delete_game_answers (data : value) (db : store) :
  (forall n, carries_id data n -> in_cart n db = true ->
             App.delete_game data db
             = (Return (Response [("status", FStr "game deleted")] 200),
                Store (users db)
                  (filter (fun g => negb (Games.has_id n g)) (games db))
                  (draws db))) /\
  (answered (fst (App.delete_game data db)) 404 <->
   exists n, carries_id data n /\ in_cart n db = false) /\
  (forall v, Py.get data "id" = Return v ->
             truthy v = false \/
             (exists e, Py.int v = Raise e /\ is_value_error e = true) ->
             answered (fst (App.delete_game data db)) 400 /\
             snd (App.delete_game data db) = db) /\
  (forall e, Py.get data "id" = Raise e \/
             (exists v, Py.get data "id" = Return v /\ truthy v = true /\
                        Py.int v = Raise e /\ is_value_error e = false) ->
             App.delete_game data db
             = (Return (Response [("error", FStr (str_exn e))] 500), db)).
Proof.
  split; [|split; [|split]].
  - intros n Hid Hin. rewrite (delete_game_with_id _ _ _ Hid), Hin. reflexivity.
  - split.
    + intros (r & Hr & Hs).
      assert (Hdec : (exists n, carries_id data n) \/ forall n, ~ carries_id data n).
      { destruct (Py.get data "id") as [v|e] eqn:Hget.
        - destruct (truthy v) eqn:Htrue.
          + destruct (Py.int v) as [n|e] eqn:Hint.
            * left. exists n, v. auto.
            * right. intros n (v' & Hv' & _ & Hint'). congruence.
          + right. intros n (v' & Hv' & Htrue' & _). congruence.
        - right. intros n (v' & Hv' & _). congruence. }
      destruct Hdec as [[n Hid]|Hnone].
      * exists n. split; [exact Hid|].
        rewrite (delete_game_with_id _ _ _ Hid) in Hr.
        destruct (in_cart n db); [|reflexivity].
        simpl in Hr. injection Hr as <-. discriminate.
      * destruct (delete_game_without_id data db Hnone)
          as (e & code & _ & Hrun & Hcode).
        rewrite Hrun in Hr. simpl in Hr. injection Hr as <-. simpl in Hs.
        destruct (is_value_error e); lia.
    + intros (n & Hid & Hout). rewrite (delete_game_with_id _ _ _ Hid), Hout.
      eexists. split; reflexivity.
  - intros v Hget Hcase.
    destruct (delete_game_without_id data db) as (e & code & Htry & Hrun & Hcode).
    { intros n (v' & Hv' & Htrue' & Hint'). rewrite Hget in Hv'.
      injection Hv' as <-. destruct Hcase as [Hf|(e & He & _)]; congruence. }
    rewrite Hrun. split; [|reflexivity].
    eexists. split; [reflexivity|]. simpl. rewrite Hcode.
    unfold App.delete_game_try in Htry. rewrite Hget in Htry.
    destruct Hcase as [Hf|(e' & He' & Hcls)].
    + rewrite Hf in Htry. simpl in Htry. injection Htry as <-. reflexivity.
    + destruct (truthy v); simpl in Htry.
      * rewrite He' in Htry. simpl in Htry. injection Htry as <-. now rewrite Hcls.
      * injection Htry as <-. reflexivity.
  - intros e He.
    destruct (delete_game_without_id data db) as (e' & code & Htry & Hrun & Hcode).
    { intros n (v' & Hv' & Htrue' & Hint').
      destruct He as [He|(v & Hv & _ & Hint & _)]; congruence. }
    rewrite Hrun. unfold App.delete_game_try in Htry.
    destruct He as [He|(v & Hv & Htrue & Hint & Hcls)].
    + rewrite He in Htry. simpl in Htry. injection Htry as <-.
      assert (Hattr : is_value_error e = false).
      { apply get_raises in He. unfold is_value_error. now rewrite He. }
      rewrite Hcode, Hattr. reflexivity.
    + rewrite Hv, Htrue, Hint in Htry. simpl in Htry. injection Htry as <-.
      rewrite Hcode, Hcls. reflexivity.
Qed.

Lemma delete_game_answers_chess :
  App.delete_game (with_id (PInt 10)) (Store [] [chess; go] 0)
  = (Return (Response [("status", FStr "game deleted")] 200), Store [] [go] 0).
Proof.
  apply (proj1 (delete_game_answers (with_id (PInt 10)) (Store [] [chess; go] 0)) 10).
  - exists (PInt 10). repeat split.
  - reflexivity.
Defined.

(** C4 fails on the id 0 and on an id that is no number: the id is there,
    the cart has no such game, and the handler answers 400, not 404 and
    not 500. *)
Lemma delete_game_unusable_id :
  App.delete_game (with_id (PInt 0)) empty_store
  = (Return (Response [("error", FStr "An id must be specified.")] 400),
     empty_store) /\
  App.delete_game (with_id (PStr "abc")) empty_store
  = (Return (Response
               [("error", FStr "invalid literal for int() with base 10: 'abc'")] 400),
     empty_store).
Proof. split; reflexivity. Qed.

(** *** Logging in *)

Section Login.
Context {P : Password}.

(** The answers of the [try] statement of [login]. *)
Lemma login_check_answers (username password : value) (db : store) :
  App.login_check username password db
  = match User.check_password username password db with
    | Return true =>
        Return (Response
                  [("message",
                    FStr ("User " ++ Py.str username ++ " logged in successfully."))]
                  200)
    | Return false =>
        Return (Response [("error", FStr "Invalid username or password")] 401)
    | Raise _ => Raise set_not_serializable
    end.
Proof.
  unfold App.login_check, App.login_try.
  destruct (User.check_password username password db) as [[|]|e]; reflexivity.
Qed.

Lemma login_answers (data : value) (db : store) (r : response) :
  App.login data db = Return r ->
  (status r = 400%nat /\ App.login_invalid data = Return true) \/
  (App.login_invalid data = Return false /\
   (status r = 401%nat \/ status r = 200%nat)).
Proof.
  unfold App.login.
  destruct (App.login_invalid data) as [[|]|e]; simpl; try discriminate.
  - intros H. injection H as <-. auto.
  - destruct (getitem data "username") as [u|e]; simpl; [|discriminate].
    destruct (getitem data "password") as [p|e]; simpl; [|discriminate].
    rewrite login_check_answers.
    destruct (User.check_password u p db) as [[|]|e]; try discriminate;
      intros H; injection H as <-; auto.
Qed.

(** C8. When [User.check_password] raises in a [POST /login] request, the
    [except] branch hands a set to [jsonify], which raises [TypeError]:
    the exception leaves the handler, and no run of [login] ever ends
    with a response of status 500. *)
Theorem login_error_branch_fails :
  (forall data username password db e,
      App.login_invalid data = Return false ->
      getitem data "username" = Return username ->
      getitem data "password" = Return password ->
      User.check_password username password db = Raise e ->
      App.login data db = Raise set_not_serializable) /\
  (forall data db r, App.login data db = Return r -> status r <> 500%nat).
Proof.
  split.
  - intros data username password db e Hvalid Hu Hp Hcheck.
    unfold App.login. rewrite Hvalid. simpl. rewrite Hu, Hp. simpl.
    rewrite login_check_answers, Hcheck. reflexivity.
  - intros data db r H. apply login_answers in H. lia.
Qed.

(** The test of line 93 on a dictionary: a key is absent. *)
Lemma login_invalid_dict (items : list (string * value)) :
  App.login_invalid (PDict items)
  = Return (match lookup "username" items, lookup "password" items with
            | Some _, Some _ => false
            | _, _ => true
            end).
Proof.
  unfold App.login_invalid. destruct items as [|item items]; [reflexivity|].
  cbn [truthy negb Py.has bind].
  destruct (lookup "username" (item :: items)); [|reflexivity].
  cbn [negb bind]. destruct (lookup "password" (item :: items)); reflexivity.
Qed.

(** C10. On a body that is a dictionary, [POST /create-account] answers
    400 whenever username or password is absent or the empty string, and
    [POST /login] answers 400 exactly when the username or the password
    key is absent.  A login with the empty string as password goes on to
    [User.check_password]: it is answered 200 when that returns true, 401
    when it returns false, and ends in the exception of the [except]
    clause when it raises; it is not answered with 400. *)
Theorem validation_differs :
  (forall items db,
      lookup "username" items = None \/ lookup "username" items = Some (PStr "") \/
      lookup "password" items = None \/ lookup "password" items = Some (PStr "") ->
      App.create_user (PDict items) db
      = (Return (Response
                   [("error",
                     FStr "Invalid input, both username and password are required")]
                   400), db)) /\
  (forall items db,
      answered (App.login (PDict items) db) 400 <->
      lookup "username" items = None \/ lookup "password" items = None) /\
  (forall items username db,
      lookup "username" items = Some username ->
      lookup "password" items = Some (PStr "") ->
      App.login (PDict items) db
      = match User.check_password username (PStr "") db with
        | Return true =>
            Return (Response
                      [("message",
                        FStr ("User " ++ Py.str username
                              ++ " logged in successfully."))] 200)
        | Return false =>
            Return (Response [("error", FStr "Invalid username or password")] 401)
        | Raise _ => Raise set_not_serializable
        end /\
      ~ answered (App.login (PDict items) db) 400).
Proof.
  split; [|split].
  - intros items db H. unfold App.create_user, App.create_user_try. simpl.
    destruct (lookup "username" items) as [u|] eqn:Hu;
      destruct (lookup "password" items) as [p|] eqn:Hp; simpl.
    + destruct H as [H|[H|[H|H]]]; try discriminate.
      * injection H as ->. reflexivity.
      * injection H as ->. simpl. now destruct (truthy u).
    + now destruct (truthy u).
    + reflexivity.
    + reflexivity.
  - intros items db. split.
    + intros (r & Hr & Hs). apply login_answers in Hr.
      destruct Hr as [(_ & Hinv)|(_ & Hr)]; [|lia].
      rewrite login_invalid_dict in Hinv.
      destruct (lookup "username" items); [|now left].
      destruct (lookup "password" items); [discriminate|now right].
    + intros H. unfold App.login. rewrite login_invalid_dict.
      assert (Hinv : match lookup "username" items, lookup "password" items with
                     | Some _, Some _ => false
                     | _, _ => true
                     end = true).
      { destruct H as [-> | ->]; [reflexivity|].
        now destruct (lookup "username" items). }
      rewrite Hinv. simpl. eexists. split; reflexivity.
  - intros items username db Hu Hp.
    assert (Hrun : App.login (PDict items) db
                   = App.login_check username (PStr "") db).
    { unfold App.login. rewrite login_invalid_dict, Hu, Hp. simpl.
      rewrite Hu. simpl. rewrite Hp. reflexivity. }
    split; [now rewrite Hrun, login_check_answers|].
    intros (r & Hr & Hs). apply login_answers in Hr.
    destruct Hr as [(_ & Hinv)|(_ & Hr)]; [|lia].
    rewrite login_invalid_dict, Hu, Hp in Hinv. discriminate.
Qed.

End Login.

Lemma login_error_branch_fails_ghost :
  App.login (credentials "ghost" "pw1") alice_db = Raise set_not_serializable.
Proof.
  apply (proj1 login_error_branch_fails (credentials "ghost" "pw1")
           (PStr "ghost") (PStr "pw1") alice_db (User.not_found (PStr "ghost")));
    reflexivity.
Defined.

Lemma validation_differs_empty_password :
  App.login (credentials "alice" "") alice_db
  = match User.check_password (PStr "alice") (PStr "") alice_db with
    | Return true =>
        Return (Response
                  [("message",
                    FStr ("User " ++ Py.str (PStr "alice")
                          ++ " logged in successfully."))] 200)
    | Return false =>
        Return (Response [("error", FStr "Invalid username or password")] 401)
    | Raise _ => Raise set_not_serializable
    end /\
  ~ answered (App.login (credentials "alice" "") alice_db) 400.
Proof.
  apply (proj2 (proj2 validation_differs)
           [("username", PStr "alice"); ("password", PStr "")] (PStr "alice") alice_db);
    reflexivity.
Defined.

(** C5 on the database in which only [alice] is registered: a login of
    an unknown user ends in the exception of the failed [except] branch,
    a login of [alice] with a wrong password is answered with 401. *)
Theorem login_unknown_user_differs :
  alice_db = snd (App.create_user (credentials "alice" "pw1") empty_store) /\
  App.login (credentials "ghost" "pw1") alice_db = Raise set_not_serializable /\
  App.login (credentials "alice" "wrong") alice_db
  = Return (Response [("error", FStr "Invalid username or password")] 401).
Proof. repeat split. Qed.

(** *** Changing a password *)

Section ChangingPassword.
Context {P : Password}.

(** [User.update_password] succeeds exactly on the username of a row and a
    password that is a string; it fails with a [ValueError] exactly when
    the username has no row. *)
Lemma update_password_outcome (username new_password : value) (db : store) :
  match User.update_password username new_password db with
  | Return _ =>
      User.find_user username db <> None /\ exists p, new_password = PStr p
  | Raise e =>
      if is_value_error e then User.find_user username db = None
      else User.find_user username db <> None /\
           forall p, new_password <> PStr p
  end.
Proof.
  unfold User.update_password.
  destruct (User.find_user username db) as [r|]; simpl; [|reflexivity].
  destruct new_password; simpl;
    try (split; [discriminate|intros p; discriminate]).
  split; [discriminate|eauto].
Qed.

(** C7. [POST /update-password] answers
    - 201 with [{"status": "password changed", "username": username}] when
      [User.update_password] succeeds, and the database is the updated one;
    - 400 when username or newPassword is missing or falsy (the empty
      string among others);
    - 401 exactly when both are there and truthy and the username has no
      row in the users table;
    - 500 with the other failures: a body that is no dictionary, or a
      failure of [User.update_password] other than the unknown user. *)
Theorem update_password_answers (data : value) (db : store) :
  (forall username new_password db',
      Py.get data "username" = Return username ->
      Py.get data "newPassword" = Return new_password ->
      truthy username = true -> truthy new_password = true ->
      User.update_password username new_password db = Return db' ->
      App.update_password data db
      = (Return (Response [("status", FStr "password changed");
                           ("username", FVal username)] 201), db')) /\
  (forall username new_password,
      Py.get data "username" = Return username ->
      Py.get data "newPassword" = Return new_password ->
      truthy username = false \/ truthy new_password = false ->
      App.update_password data db
      = (Return (Response
                   [("error",
                     FStr "Invalid input, both username and new password are required")]
                   400), db)) /\
  (answered (fst (App.update_password data db)) 401 <->
   exists username new_password,
     Py.get data "username" = Return username /\
     Py.get data "newPassword" = Return new_password /\
     truthy username = true /\ truthy new_password = true /\
     User.find_user username db = None) /\
  (forall e,
      Py.get data "username" = Raise e \/
      (exists username new_password,
          Py.get data "username" = Return username /\
          Py.get data "newPassword" = Return new_password /\
          truthy username = true /\ truthy new_password = true /\
          User.update_password username new_password db = Raise e /\
          User.find_user username db <> None) ->
      App.update_password data db
      = (Return (Response [("error", FStr (str_exn e))] 500), db)).
Proof.
  unfold App.update_password, App.update_password_try.
  split; [|split; [|split]].
  - intros u p db' Hu Hp Htu Htp Hup. rewrite Hu, Hp. simpl.
    rewrite Htu, Htp. simpl. rewrite Hup. reflexivity.
  - intros u p Hu Hp Hfalsy. rewrite Hu, Hp. simpl.
    destruct Hfalsy as [-> | ->]; simpl; [reflexivity|].
    now destruct (truthy u).
  - destruct (Py.get data "username") as [u|e] eqn:Hu.
    + destruct (Py.get data "newPassword") as [p|e] eqn:Hp.
      * simpl. destruct (truthy u) eqn:Htu; destruct (truthy p) eqn:Htp; simpl;
          try (split; [intros (r & Hr & Hs); injection Hr as <-; discriminate
                      |intros (u' & p' & Hu' & Hp' & Htu' & Htp' & _); congruence]).
        pose proof (update_password_outcome u p db) as Hout.
        destruct (User.update_password u p db) as [db'|e]; simpl.
        -- split.
           ++ intros (r & Hr & Hs). injection Hr as <-. discriminate.
           ++ intros (u' & p' & Hu' & Hp' & _ & _ & Hnone).
              injection Hu' as <-. tauto.
        -- destruct (is_value_error e); simpl.
           ++ split; [|intros _; eexists; split; reflexivity].
              intros _. exists u, p. auto.
           ++ split.
              ** intros (r & Hr & Hs). injection Hr as <-. discriminate.
              ** intros (u' & p' & Hu' & Hp' & _ & _ & Hnone).
                 injection Hu' as <-. tauto.
      * exfalso. destruct data as [| b | n | f | s | l | items];
          simpl in Hu, Hp; try discriminate.
        destruct (lookup "newPassword" items); discriminate.
    + pose proof (get_raises _ _ _ Hu) as Hcls.
      unfold is_value_error. rewrite Hcls. simpl. split.
      * intros (r & Hr & Hs). injection Hr as <-. discriminate.
      * intros (u' & p' & Hu' & _). discriminate.
  - intros e [He|(u & p & Hu & Hp & Htu & Htp & Hup & Hfound)].
    + rewrite He. pose proof (get_raises _ _ _ He) as Hcls.
      unfold is_value_error. rewrite Hcls. reflexivity.
    + rewrite Hu, Hp. simpl. rewrite Htu, Htp. simpl.
      pose proof (update_password_outcome u p db) as Hout.
      rewrite Hup in *. simpl.
      destruct (is_value_error e); [contradiction|reflexivity].
Qed.

End ChangingPassword.

Lemma update_password_answers_alice :
  App.update_password (new_credentials "alice" "pw2") alice_db
  = (Return (Response [("status", FStr "password changed");
                       ("username", FVal (PStr "alice"))] 201),
     Store [User "alice" "1" "1:pw2"] [] 2).
Proof.
  apply (proj1 (update_password_answers (new_credentials "alice" "pw2") alice_db)
           (PStr "alice") (PStr "pw2")); reflexivity.
Defined.

(** *** Adding a game *)

Section AddingGame.
Variable api : catalog.

(** The run of [POST /add-game] on a body that carries an id. *)
Lemma add_game_with_id (data : value) (n : Z) (db : store) :
  carries_id data n ->
  App.add_game_try api data db
  = bind (get_game_info api n)
      (fun info =>
         match info with
         | None =>
             Return (Response
                       [("error",
                         FStr ("id " ++ dec n ++ " does not correspond to a game"))]
                       404, db)
         | Some g =>
             bind (Games.create_game (game_id g) (game_name g) (game_price g) db)
               (fun db' =>
                  Return (Response [("status", FStr "game added");
                                    ("game", FStr (game_name g))] 201, db'))
         end).
Proof.
  intros (v & Hget & Htrue & Hint). unfold App.add_game_try.
  rewrite Hget. simpl. rewrite Htrue. simpl. rewrite Hint. simpl.
  destruct (get_game_info api n) as [[[id name price]|]|e]; reflexivity.
Qed.

(** C6, as the handler has it.  On a body that carries the id [n],
    [POST /add-game] answers 404 exactly when [get_game_info n] returns the
    empty result.  When it returns a game and [create_game] accepts it, the
    game is persisted with the id, name and price the catalog reports and
    the answer is 201 with [{"status": "game added", "game": name}].  When
    the lookup or [create_game] fails, the answer is 400 for a
    [ValueError] and 500 otherwise, and the cart is as before. *)
Theorem add_game_answers (data : value) (n : Z) (db : store) :
  carries_id data n ->
  (answered (fst (App.add_game api data db)) 404 <->
   get_game_info api n = Return None) /\
  (forall g db',
      get_game_info api n = Return (Some g) ->
      Games.create_game (game_id g) (game_name g) (game_price g) db = Return db' ->
      App.add_game api data db
      = (Return (Response [("status", FStr "game added");
                           ("game", FStr (game_name g))] 201), db') /\
      games db' = (games db ++ [g])%list) /\
  (forall e,
      get_game_info api n = Raise e \/
      (exists g, get_game_info api n = Return (Some g) /\
                 Games.create_game (game_id g) (game_name g) (game_price g) db
                 = Raise e) ->
      App.add_game api data db
      = (Return (Response [("error", FStr (str_exn e))]
                   (if is_value_error e then 400 else 500)), db)).
Proof.
  intros Hid. unfold App.add_game. rewrite (add_game_with_id _ _ _ Hid).
  split; [|split].
  - destruct (get_game_info api n) as [[g|]|e]; simpl.
    + destruct (Games.create_game _ _ _ db) as [db'|e]; simpl.
      * split; [|discriminate]. intros (r & Hr & Hs). injection Hr as <-.
        discriminate.
      * split; [|discriminate]. intros (r & Hr & Hs).
        destruct (is_value_error e); simpl in Hr; injection Hr as <-;
          discriminate.
    + split; [reflexivity|]. intros _. eexists. split; reflexivity.
    + split; [|discriminate]. intros (r & Hr & Hs).
      destruct (is_value_error e); simpl in Hr; injection Hr as <-; discriminate.
  - intros g db' Hinfo Hcreate. rewrite Hinfo. simpl. rewrite Hcreate. simpl.
    split; [reflexivity|]. destruct g as [id name price].
    apply create_game_returns in Hcreate as (_ & _ & ->). reflexivity.
  - intros e [Hinfo|(g & Hinfo & Hcreate)]; rewrite Hinfo; simpl.
    + now destruct (is_value_error e).
    + rewrite Hcreate. simpl. now destruct (is_value_error e).
Qed.

End AddingGame.

Lemma add_game_answers_chess :
  App.add_game shelf (with_id (PInt 10)) empty_store
  = (Return (Response [("status", FStr "game added"); ("game", FStr "Chess")] 201),
     Store [] [chess] 0) /\
  games (Store [] [chess] 0) = [chess].
Proof.
  apply (proj1 (proj2 (add_game_answers shelf (with_id (PInt 10)) 10 empty_store
                         (ex_intro _ (PInt 10) (conj eq_refl (conj eq_refl eq_refl)))))
           chess (Store [] [chess] 0)); reflexivity.
Defined.

(** C6 fails when the catalog cannot be reached, and when the game is in
    the cart already: the id is valid, the lookup does not return the
    empty result, and the answer is 500 and nothing is persisted. *)
Lemma add_game_not_persisted :
  App.add_game offline (with_id (PInt 10)) empty_store
  = (Return (Response [("error", FStr "catalog request timed out")] 500),
     empty_store) /\
  App.add_game shelf (with_id (PInt 10)) (Store [] [chess] 0)
  = (Return (Response [("error", FStr "Game with id 10 already exists")] 500),
     Store [] [chess] 0).
Proof. split; reflexivity. Qed.

(** *** The scenarios of the specification *)

(** Section 8: create [alice] with [pw1]; a login with a wrong password is
    answered 401, with [pw1] 200; after the password is changed to [pw2],
    [pw1] is answered 401 and [pw2] 200. *)
Example scenario_alice :
  let '(r1, db1) := App.create_user (credentials "alice" "pw1") empty_store in
  let r2 := App.login (credentials "alice" "wrong") db1 in
  let r3 := App.login (credentials "alice" "pw1") db1 in
  let '(r4, db4) := App.update_password (new_credentials "alice" "pw2") db1 in
  let r5 := App.login (credentials "alice" "pw1") db4 in
  let r6 := App.login (credentials "alice" "pw2") db4 in
  answered r1 201 /\ answered r2 401 /\ answered r3 200 /\
  answered r4 201 /\ answered r5 401 /\ answered r6 200.
Proof. simpl. repeat split; eexists; split; reflexivity. Qed.

(** Section 8: add the game 10, which the catalog knows as Chess at 9.99;
    the cart lists it and totals 9.99; it is deleted once, and a second
    deletion is answered 404. *)
Example scenario_chess :
  let '(r1, db1) := App.add_game shelf (with_id (PInt 10)) empty_store in
  let r2 := App.get_games db1 in
  let r3 := App.get_total_price db1 in
  let '(r4, db4) := App.delete_game (with_id (PInt 10)) db1 in
  let r5 := App.get_games db4 in
  let '(r6, db6) := App.delete_game (with_id (PInt 10)) db4 in
  answered r1 201 /\
  r2 = Return (Response [("games", FGames [chess])] 200) /\
  r3 = Return (Response [("price", FNum (Float 9.99%float))] 200) /\
  answered r4 200 /\
  r5 = Return (Response [("games", FGames [])] 200) /\
  answered r6 404.
Proof.
  simpl. repeat split; try reflexivity; eexists; split; reflexivity.
Qed.

(** ** Further properties of the handlers *)

(** *** Which answers there are *)

Section Answers.
Context {P : Password}.
Variable api : catalog.

(** X1. Every handler with a request body or a parameter, but [login],
    answers every request: no exception leaves it, and the status is one
    of those its docstring names. *)
Theorem handlers_always_answer :
  (forall data db, exists r,
      fst (App.create_user data db) = Return r /\
      (status r = 201 \/ status r = 400 \/ status r = 500)%nat) /\
  (forall data db, exists r,
      fst (App.update_password data db) = Return r /\
      (status r = 201 \/ status r = 400 \/ status r = 401 \/ status r = 500)%nat) /\
  (forall keyword, exists r,
      App.search_games api keyword = Return r /\
      (status r = 200 \/ status r = 500)%nat) /\
  (forall data db, exists r,
      fst (App.add_game api data db) = Return r /\
      (status r = 201 \/ status r = 400 \/ status r = 404 \/ status r = 500)%nat) /\
  (forall data db, exists r,
      fst (App.delete_game data db) = Return r /\
      (status r = 200 \/ status r = 400 \/ status r = 404 \/ status r = 500)%nat).
Proof.
  split; [|split; [|split; [|split]]].
  - intros data db. unfold App.create_user.
    destruct (App.create_user_try data db) as [[r db']|e] eqn:Htry; simpl.
    + exists r. split; [reflexivity|].
      apply create_user_try_status in Htry. tauto.
    + eexists. split; [reflexivity|]. simpl. auto.
  - intros data db. unfold App.update_password.
    destruct (App.update_password_try data db) as [u [[r db']|e]] eqn:Htry; simpl.
    + exists r. split; [reflexivity|].
      apply (f_equal snd) in Htry. apply update_password_try_status in Htry. tauto.
    + destruct (is_value_error e) eqn:Hcls; simpl.
      * unfold App.update_password_try in Htry.
        destruct (Py.get data "username") as [username|e'] eqn:Hu.
        -- injection Htry as <- _. simpl. eexists. split; [reflexivity|].
           simpl. auto.
        -- injection Htry as _ <-. apply get_raises in Hu.
           unfold is_value_error in Hcls. rewrite Hu in Hcls. discriminate.
      * eexists. split; [reflexivity|]. simpl. auto.
  - intros keyword. unfold App.search_games.
    destruct (search_for_games api keyword) as [found|e]; simpl;
      eexists; (split; [reflexivity|]); simpl; auto.
  - intros data db. unfold App.add_game.
    destruct (App.add_game_try api data db) as [[r db']|e] eqn:Htry; simpl.
    + exists r. split; [reflexivity|].
      apply add_game_try_status in Htry. tauto.
    + destruct (is_value_error e); simpl; eexists; (split; [reflexivity|]);
        simpl; auto.
  - intros data db. unfold App.delete_game.
    destruct (App.delete_game_try data db) as [id [[r db']|e]] eqn:Htry; simpl.
    + exists r. split; [reflexivity|].
      apply (f_equal snd) in Htry. apply delete_game_try_status in Htry. tauto.
    + destruct (is_value_error e) eqn:Hcls; simpl.
      * unfold App.delete_game_try in Htry.
        destruct (Py.get data "id") as [v|e'] eqn:Hget.
        -- assert (Hbound : exists v', id = Some v').
           { destruct (truthy v); simpl in Htry.
             - destruct (Py.int v); injection Htry as <- _; eauto.
             - injection Htry as <- _. eauto. }
           destruct Hbound as [v' ->]. simpl.
           destruct (str_exn e =? _)%string; eexists; (split; [reflexivity|]);
             simpl; auto.
        -- injection Htry as _ <-. apply get_raises in Hget.
           unfold is_value_error in Hcls. rewrite Hget in Hcls. discriminate.
      * eexists. split; [reflexivity|]. simpl. auto.
Qed.

(** [k in data] fails with a [TypeError] only. *)
Lemma has_raises (k : string) (data : value) (e : exn) :
  Py.has k data = Raise e -> exn_cls e = TypeError.
Proof.
  destruct data; simpl; try discriminate; intros H; injection H as <-;
    reflexivity.
Qed.

(** [data[k]] fails on what is no dictionary with a [TypeError]. *)
Lemma getitem_raises (data : value) (k : string) (e : exn) :
  Py.getitem data k = Raise e ->
  (exists items, data = PDict items /\ lookup k items = None) \/
  ((forall items, data <> PDict items) /\ exn_cls e = TypeError).
Proof.
  destruct data as [| b | n | f | s | l | items]; simpl;
    try (intros H; injection H as <-; right; split;
         [intros items; discriminate|reflexivity]).
  destruct (lookup k items) eqn:Hk; [discriminate|]. intros _. left. eauto.
Qed.

(** X2. Once the body is decoded (line 92 returned), the only exception
    that leaves [login] is a [TypeError]: the lookups of line 97 and 98
    never fail with a [KeyError], and the exception stems from a body that
    is no dictionary or from the [except] clause after
    [User.check_password] raised. *)
Theorem login_raises_type_error (data : value) (db : store) (e : exn) :
  App.login data db = Raise e ->
  exn_cls e = TypeError /\
  ((forall items, data <> PDict items) \/
   exists username password e',
     getitem data "username" = Return username /\
     getitem data "password" = Return password /\
     User.check_password username password db = Raise e').
Proof.
  unfold App.login.
  destruct (App.login_invalid data) as [[|]|e0] eqn:Hinv; simpl.
  - discriminate.
  - destruct (getitem data "username") as [u|e1] eqn:Hu; simpl.
    + destruct (getitem data "password") as [p|e2] eqn:Hp; simpl.
      * rewrite login_check_answers.
        destruct (User.check_password u p db) as [[|]|e'] eqn:Hcheck;
          try discriminate.
        intros H. injection H as <-. split; [reflexivity|].
        right. exists u, p, e'. auto.
      * intros H. injection H as <-.
        apply getitem_raises in Hp as [(items & -> & Hnone)|(Hnd & Hcls)]; [|auto].
        rewrite login_invalid_dict, Hnone in Hinv.
        destruct (lookup "username" items); discriminate.
    + intros H. injection H as <-.
      apply getitem_raises in Hu as [(items & -> & Hnone)|(Hnd & Hcls)]; [|auto].
      rewrite login_invalid_dict, Hnone in Hinv. discriminate.
  - intros H. injection H as <-. unfold App.login_invalid in Hinv.
    destruct (truthy data); simpl in Hinv; [|discriminate].
    destruct (Py.has "username" data) as [[|]|e1] eqn:H1; simpl in Hinv.
    + destruct (Py.has "password" data) as [b|e2] eqn:H2; simpl in Hinv;
        [discriminate|]. injection Hinv as <-.
      split; [exact (has_raises _ _ _ H2)|]. left. intros items ->. discriminate.
    + discriminate.
    + injection Hinv as <-.
      split; [exact (has_raises _ _ _ H1)|]. left. intros items ->. discriminate.
Qed.

(** X3. A body that is no dictionary is never authenticated: [login]
    answers it with 400 or fails with a [TypeError], and does not get to
    [User.check_password]. *)
Theorem login_needs_dictionary (data : value) (db : store) :
  (forall items, data <> PDict items) ->
  answered (App.login data db) 400 \/
  exists e, App.login data db = Raise e /\ exn_cls e = TypeError.
Proof.
  intros Hnd. unfold App.login, App.login_invalid.
  destruct data as [| b | n | [q shown | neg |] | s | l | items];
    try (now destruct (Hnd items));
    simpl;
    repeat match goal with
           | |- context [if ?c then _ else _] => destruct c; simpl
           end;
    first [ left; eexists; split; reflexivity
          | right; eexists; split; reflexivity ].
Qed.

End Answers.

Lemma login_raises_type_error_number :
  exn_cls (Exn TypeError "argument of type 'int' is not iterable") = TypeError /\
  ((forall items, PInt 5 <> PDict items) \/
   exists username password e',
     getitem (PInt 5) "username" = Return username /\
     getitem (PInt 5) "password" = Return password /\
     User.check_password username password alice_db = Raise e').
Proof.
  apply (login_raises_type_error (PInt 5) alice_db). reflexivity.
Defined.

Lemma login_needs_dictionary_list :
  answered (App.login (PList [PStr "username"; PStr "password"]) alice_db) 400 \/
  exists e, App.login (PList [PStr "username"; PStr "password"]) alice_db = Raise e /\
            exn_cls e = TypeError.
Proof.
  apply (login_needs_dictionary (PList [PStr "username"; PStr "password"]) alice_db).
  intros items. discriminate.
Defined.

(** *** An id sent as a string *)

Lemma numeral_no_space (d : Decimal.uint) :
  Forall (fun c => is_space c = false) (numeral d).
Proof.
  unfold numeral. induction d; simpl; constructor; auto.
Qed.

Lemma lstrip_nothing (l : list ascii) :
  Forall (fun c => is_space c = false) l -> lstrip l = l.
Proof.
  destruct l as [|c l]; [reflexivity|]. intros H. inversion H as [|? ? Hc _].
  simpl. now rewrite Hc.
Qed.

Lemma strip_nothing (l : list ascii) :
  Forall (fun c => is_space c = false) l -> strip l = l.
Proof.
  intros H. unfold strip. rewrite (lstrip_nothing l H).
  rewrite lstrip_nothing by now apply Forall_rev.
  apply rev_involutive.
Qed.

(** Reading the digits of a numeral from the left gives the number that
    the numeral, read from the right, stands for. *)
Lemma digits_numeral (d r : Decimal.uint) (after_digit : bool) :
  d <> Decimal.Nil \/ after_digit = true ->
  digits (Z.of_N (DecimalPos.Unsigned.of_lu r)) after_digit (numeral d)
  = Some (Z.of_N (DecimalPos.Unsigned.of_lu (Decimal.revapp d r))).
Proof.
  revert r after_digit.
  induction d; intros r after_digit Hd;
    try (unfold numeral in *; simpl;
         match goal with
         | |- digits ?acc true _ = Some (Z.of_N (DecimalPos.Unsigned.of_lu
                                                  (Decimal.revapp _ ?r'))) =>
             replace acc with (Z.of_N (DecimalPos.Unsigned.of_lu r'))
               by (cbn [DecimalPos.Unsigned.of_lu]; lia)
         end;
         apply IHd; now right).
  destruct Hd as [Hd| ->]; [contradiction|]. reflexivity.
Qed.

Lemma run_numeral (d : Decimal.uint) : run (numeral d) = (numeral d, []).
Proof.
  unfold numeral. induction d; simpl; try reflexivity;
    unfold numeral in IHd; rewrite IHd; reflexivity.
Qed.

Lemma count_numeral (d : Decimal.uint) :
  length (filter is_digit (numeral d)) = length (numeral d).
Proof.
  unfold numeral. induction d; simpl; try reflexivity; now rewrite IHd.
Qed.

(** [int] reads a numeral of at most 4300 digits as the number it stands
    for. *)
Lemma unsigned_numeral (d : Decimal.uint) :
  d <> Decimal.Nil -> (length (numeral d) <= max_str_digits)%nat ->
  unsigned (numeral d) = Value (Z.of_N (Pos.of_uint d)).
Proof.
  intros Hne Hlen. unfold unsigned. rewrite run_numeral.
  pose proof (digits_numeral d Decimal.Nil false (or_introl Hne)) as Hdigits.
  change (Z.of_N (DecimalPos.Unsigned.of_lu Decimal.Nil)) with 0 in Hdigits.
  rewrite Hdigits, count_numeral.
  apply Nat.ltb_ge in Hlen. rewrite Hlen.
  now rewrite DecimalPos.Unsigned.of_uint_alt.
Qed.

Lemma dec_positive (p : positive) :
  list_ascii_of_string (dec (Zpos p)) = numeral (Pos.to_uint p).
Proof.
  unfold dec, numeral. simpl. unfold NilZero.string_of_uint.
  pose proof (DecimalPos.Unsigned.to_uint_nonnil p) as Hne.
  now destruct (Pos.to_uint p).
Qed.

Lemma dec_negative (p : positive) :
  list_ascii_of_string (dec (Zneg p)) = "-"%char :: numeral (Pos.to_uint p).
Proof.
  unfold dec, numeral. simpl. unfold NilZero.string_of_uint.
  pose proof (DecimalPos.Unsigned.to_uint_nonnil p) as Hne.
  now destruct (Pos.to_uint p).
Qed.

Lemma numeral_head (d : Decimal.uint) :
  d <> Decimal.Nil ->
  exists c rest, numeral d = c :: rest /\
                 Ascii.eqb c "-" = false /\ Ascii.eqb c "+" = false.
Proof.
  unfold numeral. destruct d; [contradiction|..]; intros _; simpl;
    eexists; eexists; (split; [reflexivity|]); split; reflexivity.
Qed.

(** [int] reads the decimal notation of an integer of at most 4300 digits
    back. *)
Lemma int_of_string_dec (n : Z) :
  (digit_count n <= max_str_digits)%nat -> int_of_string (dec n) = Value n.
Proof.
  unfold int_of_string, digit_count. destruct n as [|p|p].
  - intros _. reflexivity.
  - simpl Z.abs. rewrite dec_positive. intros Hlen.
    pose proof (DecimalPos.Unsigned.to_uint_nonnil p) as Hne.
    rewrite (strip_nothing _ (numeral_no_space _)).
    destruct (numeral_head _ Hne) as (c & rest & Heq & Hminus & Hplus).
    rewrite Heq, Hminus, Hplus, <- Heq, (unsigned_numeral _ Hne Hlen).
    now rewrite DecimalPos.Unsigned.of_to.
  - simpl Z.abs. rewrite dec_positive, dec_negative. intros Hlen.
    pose proof (DecimalPos.Unsigned.to_uint_nonnil p) as Hne.
    rewrite strip_nothing
      by (constructor; [reflexivity|apply numeral_no_space]).
    change (Ascii.eqb "-" "-") with true. cbv iota.
    rewrite (unsigned_numeral _ Hne Hlen), DecimalPos.Unsigned.of_to.
    reflexivity.
Qed.

Lemma carries_decimal_string (n : Z) :
  (digit_count n <= max_str_digits)%nat ->
  carries_id (with_id (PStr (dec n))) n.
Proof.
  intros Hlen. exists (PStr (dec n)). split; [reflexivity|]. split.
  - simpl. unfold dec, Z.to_int.
    destruct n as [|p|p]; [reflexivity|..]; simpl;
      pose proof (DecimalPos.Unsigned.to_uint_nonnil p) as Hne;
      unfold NilZero.string_of_uint; destruct (Pos.to_uint p);
      try contradiction; reflexivity.
  - unfold Py.int. now rewrite int_of_string_dec.
Qed.

(** X4. An id other than 0, of at most 4300 digits, may be sent as a
    number or as the string of its decimal notation: [POST /add-game] and
    [DELETE /delete-game] give the same answer and leave the same
    database.  (For 0 the two differ: the number is answered 400, the
    string is looked up.) *)
Theorem id_as_string (api : catalog) (n : Z) (db : store) :
  n <> 0 -> (digit_count n <= max_str_digits)%nat ->
  App.add_game api (with_id (PStr (dec n))) db
  = App.add_game api (with_id (PInt n)) db /\
  App.delete_game (with_id (PStr (dec n))) db
  = App.delete_game (with_id (PInt n)) db.
Proof.
  intros Hn Hlen.
  assert (Hint : carries_id (with_id (PInt n)) n).
  { exists (PInt n). split; [reflexivity|]. split; [|reflexivity].
    simpl. now apply Bool.negb_true_iff, Z.eqb_neq. }
  pose proof (carries_decimal_string n Hlen) as Hstr.
  split.
  - unfold App.add_game.
    now rewrite (add_game_with_id api _ _ db Hstr), (add_game_with_id api _ _ db Hint).
  - now rewrite (delete_game_with_id _ _ db Hstr), (delete_game_with_id _ _ db Hint).
Qed.

Lemma id_as_string_ten :
  App.add_game shelf (with_id (PStr (dec 10))) empty_store
  = App.add_game shelf (with_id (PInt 10)) empty_store /\
  App.delete_game (with_id (PStr (dec 10))) empty_store
  = App.delete_game (with_id (PInt 10)) empty_store.
Proof.
  apply (id_as_string shelf 10 empty_store).
  - discriminate.
  - apply Nat.leb_le. vm_compute. reflexivity.
Defined.

(** *** Adding, listing and deleting *)

Lemma filter_nothing {A : Type} (f : A -> bool) (l : list A) :
  existsb f l = false -> filter (fun x => negb (f x)) l = l.
Proof.
  induction l as [|a l IH]; simpl; [reflexivity|].
  destruct (f a); simpl; [discriminate|]. intros H. now rewrite IH.
Qed.

Lemma filter_leaves_none {A : Type} (f : A -> bool) (l : list A) :
  existsb f (filter (fun x => negb (f x)) l) = false.
Proof.
  induction l as [|a l IH]; simpl; [reflexivity|].
  destruct (f a) eqn:Hf; simpl; [exact IH|]. now rewrite Hf.
Qed.

Section Cart.
Variable api : catalog.

(** X5. A 201 of [POST /add-game] means that one row was appended to the
    cart, for the game whose name is in the answer; [GET /get-games] then
    lists it last and [GET /get-total-price] answers the former total
    with its price added, in floating point. *)
Theorem add_game_appends (data : value) (db : store) (r : response) :
  fst (App.add_game api data db) = Return r -> status r = 201%nat ->
  exists g,
    resp_body r = [("status", FStr "game added"); ("game", FStr (game_name g))] /\
    App.get_games (snd (App.add_game api data db))
    = Return (Response [("games", FGames (games db ++ [g]))] 200) /\
    App.get_total_price (snd (App.add_game api data db))
    = Return (Response
                [("price",
                  FNum (Float (float_sum (map game_price (games db))
                               + game_price g)%float))] 200).
Proof.
  unfold App.add_game.
  destruct (App.add_game_try api data db) as [[r' db']|e] eqn:Htry; simpl.
  - intros H Hs. injection H as ->. unfold App.add_game_try in Htry.
    destruct (Py.get data "id") as [v|]; simpl in Htry; [|discriminate].
    destruct (if negb (truthy v) then _ else _) as [n|]; simpl in Htry;
      [|discriminate].
    destruct (get_game_info api n) as [[[id name price]|]|]; simpl in Htry;
      try discriminate.
    + destruct (Games.create_game id name price db) as [db1|] eqn:Hc;
        simpl in Htry; [|discriminate].
      injection Htry as <- <-. exists (Game id name price).
      apply create_game_returns in Hc as (_ & _ & ->).
      split; [reflexivity|]. split; [reflexivity|].
      unfold App.get_total_price, Games.get_all_games. simpl.
      rewrite sum_total. unfold price_total. rewrite map_app, float_sum_app.
      now destruct (games db).
    + injection Htry as <- _. discriminate.
  - destruct (is_value_error e); simpl; intros H Hs; injection H as <-;
      discriminate.
Qed.

(** X6. Adding a game that is not in the cart and deleting it again, by
    the same body, gives back the database as it was, when the catalog
    reports the game under the id of the request. *)
Theorem add_then_delete (data : value) (n : Z) (g : game) (db : store) :
  carries_id data n ->
  get_game_info api n = Return (Some g) ->
  game_id g = n -> acceptable g = true -> in_cart n db = false ->
  answered (fst (App.add_game api data db)) 201 /\
  App.delete_game data (snd (App.add_game api data db))
  = (Return (Response [("status", FStr "game deleted")] 200), db).
Proof.
  intros Hid Hinfo Hg Hok Hnew. destruct g as [id name price]. simpl in Hg.
  subst id.
  assert (Hc : Games.create_game n name price db
               = Return (Store (users db) (games db ++ [Game n name price])
                           (draws db))).
  { apply create_game_returns. auto. }
  unfold App.add_game. rewrite (add_game_with_id api _ _ db Hid), Hinfo. simpl.
  rewrite Hc. simpl. split; [eexists; split; reflexivity|].
  rewrite (delete_game_with_id _ _ _ Hid). unfold in_cart. simpl.
  rewrite existsb_app. simpl. unfold Games.has_id at 2. simpl.
  rewrite Z.eqb_refl, Bool.orb_true_r. f_equal.
  rewrite filter_app. simpl. unfold Games.has_id at 2. simpl.
  rewrite Z.eqb_refl. simpl. rewrite app_nil_r.
  unfold in_cart in Hnew. rewrite (filter_nothing _ _ Hnew).
  now destruct db.
Qed.

End Cart.

(** X7. [DELETE /delete-game] removes every row of the id and no other row:
    after a 200 the same request is answered 404 and changes nothing. *)
Theorem delete_game_once (data : value) (n : Z) (db : store) :
  carries_id data n -> in_cart n db = true ->
  let db' := snd (App.delete_game data db) in
  answered (fst (App.delete_game data db)) 200 /\
  games db' = filter (fun g => negb (Games.has_id n g)) (games db) /\
  (answered (fst (App.delete_game data db')) 404 /\
   snd (App.delete_game data db') = db').
Proof.
  intros Hid Hin. cbv zeta. rewrite (delete_game_with_id _ _ db Hid), Hin.
  simpl fst. simpl snd. split; [eexists; split; reflexivity|].
  split; [reflexivity|].
  rewrite (delete_game_with_id _ _ _ Hid). unfold in_cart at 1 2. simpl games.
  rewrite filter_leaves_none. simpl. split; [|reflexivity].
  eexists. split; reflexivity.
Qed.

Lemma add_game_appends_chess :
  exists g,
    [("status", FStr "game added"); ("game", FStr "Chess")]
    = [("status", FStr "game added"); ("game", FStr (game_name g))] /\
    App.get_games (snd (App.add_game shelf (with_id (PInt 10)) (Store [] [go] 0)))
    = Return (Response [("games", FGames ([go] ++ [g]))] 200) /\
    App.get_total_price (snd (App.add_game shelf (with_id (PInt 10)) (Store [] [go] 0)))
    = Return (Response
                [("price",
                  FNum (Float (float_sum (map game_price [go]) + game_price g)%float))]
                200).
Proof.
  apply (add_game_appends shelf (with_id (PInt 10)) (Store [] [go] 0)
           (Response [("status", FStr "game added"); ("game", FStr "Chess")] 201));
    reflexivity.
Defined.

Lemma add_then_delete_chess :
  answered (fst (App.add_game shelf (with_id (PInt 10)) (Store [] [go] 0))) 201 /\
  App.delete_game (with_id (PInt 10))
    (snd (App.add_game shelf (with_id (PInt 10)) (Store [] [go] 0)))
  = (Return (Response [("status", FStr "game deleted")] 200), Store [] [go] 0).
Proof.
  apply (add_then_delete shelf (with_id (PInt 10)) 10 chess (Store [] [go] 0)).
  - exists (PInt 10). repeat split.
  - reflexivity.
  - reflexivity.
  - reflexivity.
  - reflexivity.
Defined.

Lemma delete_game_once_chess :
  let db' := snd (App.delete_game (with_id (PInt 10)) (Store [] [chess; go] 0)) in
  answered (fst (App.delete_game (with_id (PInt 10)) (Store [] [chess; go] 0))) 200 /\
  games db' = filter (fun g => negb (Games.has_id 10 g)) [chess; go] /\
  (answered (fst (App.delete_game (with_id (PInt 10)) db')) 404 /\
   snd (App.delete_game (with_id (PInt 10)) db') = db').
Proof.
  apply (delete_game_once (with_id (PInt 10)) 10 (Store [] [chess; go] 0)).
  - exists (PInt 10). repeat split.
  - reflexivity.
Defined.

(** *** The invariant of the cart *)

(** Removing rows from a cart keeps the ids of the rest distinct. *)
Lemma distinct_ids_filter (keep : game -> bool) (gs : list game) :
  NoDup (map game_id gs) -> NoDup (map game_id (filter keep gs)).
Proof.
  induction gs as [|g gs IH]; simpl; intros Hnd; [constructor|].
  apply NoDup_cons_iff in Hnd as (Hfresh & Hrest).
  destruct (keep g); simpl; [|now apply IH].
  apply NoDup_cons_iff. split; [|now apply IH].
  contradict Hfresh.
  apply in_map_iff in Hfresh as (h & Hid & Hh).
  apply filter_In in Hh. rewrite <- Hid. apply in_map. tauto.
Qed.

Section CartInvariant.
Variable api : catalog.

(** What [POST /add-game] does to the database: nothing, or one
    acceptable row with a new id is appended to the cart. *)
Lemma add_game_store (data : value) (db : store) :
  snd (App.add_game api data db) = db \/
  exists g, acceptable g = true /\ in_cart (game_id g) db = false /\
            snd (App.add_game api data db)
            = Store (users db) (games db ++ [g]) (draws db).
Proof.
  unfold App.add_game.
  destruct (App.add_game_try api data db) as [[r db']|e] eqn:Htry; simpl.
  - unfold App.add_game_try in Htry.
    destruct (Py.get data "id") as [v|]; simpl in Htry; [|discriminate].
    destruct (if negb (truthy v) then _ else _) as [n|]; simpl in Htry;
      [|discriminate].
    destruct (get_game_info api n) as [[[id name price]|]|]; simpl in Htry;
      try discriminate.
    + destruct (Games.create_game id name price db) as [db1|] eqn:Hc;
        simpl in Htry; [|discriminate].
      injection Htry as _ <-. right. exists (Game id name price).
      apply create_game_returns in Hc. tauto.
    + injection Htry as _ <-. now left.
  - left. now destruct (is_value_error e).
Qed.

(** What [DELETE /delete-game] does to the database: nothing, or the
    rows of one id are removed from the cart. *)
Lemma delete_game_store (data : value) (db : store) :
  snd (App.delete_game data db) = db \/
  exists n, snd (App.delete_game data db)
            = Store (users db)
                (filter (fun g => negb (Games.has_id n g)) (games db)) (draws db).
Proof.
  unfold App.delete_game.
  destruct (App.delete_game_try data db) as [id [[r db']|e]] eqn:Htry; simpl.
  - unfold App.delete_game_try in Htry.
    destruct (Py.get data "id") as [v|]; [|discriminate].
    destruct (truthy v); simpl in Htry; [|discriminate].
    destruct (Py.int v) as [n|]; [|discriminate].
    rewrite delete_game_returns in Htry.
    destruct (in_cart n db); simpl in Htry; [|discriminate].
    injection Htry as _ _ <-. right. now exists n.
  - left. now destruct (is_value_error e).
Qed.


End CartInvariant.


(** *** Registering, changing the password and logging in *)

Lemma find_replaced (u : string) (r : user) (l : list user) :
  user_name r = u ->
  find (fun r' => (user_name r' =? u)%string) l <> None ->
  find (fun r' => (user_name r' =? u)%string)
    (map (fun r' => if (user_name r' =? user_name r)%string then r else r') l)
  = Some r.
Proof.
  intros <-. induction l as [|a l IH]; simpl; [congruence|].
  destruct (user_name a =? user_name r)%string eqn:Ha.
  - intros _. now rewrite String.eqb_refl.
  - intros H. rewrite Ha. auto.
Qed.

Section Accounts.
Context {P : Password}.

Lemma login_credentials (u p : string) (db : store) :
  App.login (credentials u p) db = App.login_check (PStr u) (PStr p) db.
Proof. reflexivity. Qed.

(** After [update_password], [check_password] compares the hash of the
    password it is given with the hash of the new password. *)
Lemma check_after_update (u new p : string) (db db' : store) :
  User.update_password (PStr u) (PStr new) db = Return db' ->
  User.check_password (PStr u) (PStr p) db'
  = Return (hash_password p (urandom (draws db))
            =? hash_password new (urandom (draws db)))%string.
Proof.
  unfold User.update_password, User.check_password, User.find_user.
  destruct (find (fun r => (user_name r =? u)%string) (users db)) as [r|] eqn:Hf;
    [|discriminate].
  intros H. injection H as <-. simpl users.
  pose proof (find_some _ _ Hf) as (_ & Hname). apply String.eqb_eq in Hname.
  rewrite (find_replaced u (User (user_name r) _ _) (users db)); simpl; auto.
  congruence.
Qed.

(** What [login] answers to a username and a password that are strings,
    given what [User.check_password] returns. *)
Lemma login_verdict (u p : string) (db : store) (ok : bool) :
  User.check_password (PStr u) (PStr p) db = Return ok ->
  App.login (credentials u p) db
  = if ok
    then Return (Response
                   [("message", FStr ("User " ++ u ++ " logged in successfully."))]
                   200)
    else Return (Response [("error", FStr "Invalid username or password")] 401).
Proof.
  intros Hcheck. rewrite login_credentials, login_check_answers, Hcheck.
  now destruct ok.
Qed.

(** X9. A user who registered through [POST /create-account] is logged in
    with the password of the registration; a login with another password
    is answered 401, unless the hash of that password under the salt of
    the registration is the stored hash, in which case it is answered 200
    as well. *)
Theorem register_then_login (u pw : string) (db : store) :
  u <> "" -> pw <> "" -> User.find_user (PStr u) db = None ->
  let db' := snd (App.create_user (credentials u pw) db) in
  let salt := urandom (draws db) in
  answered (fst (App.create_user (credentials u pw) db)) 201 /\
  App.login (credentials u pw) db'
  = Return (Response [("message", FStr ("User " ++ u ++ " logged in successfully."))]
              200) /\
  forall p,
    App.login (credentials u p) db'
    = if (hash_password p salt =? hash_password pw salt)%string
      then Return (Response
                     [("message", FStr ("User " ++ u ++ " logged in successfully."))]
                     200)
      else Return (Response [("error", FStr "Invalid username or password")] 401).
Proof.
  intros Hu Hp Hnew. cbv zeta.
  destruct (create_user_accepts u pw db Hu Hp Hnew) as [db' Hc].
  assert (Hrun : App.create_user (credentials u pw) db
                 = (Return (Response [("status", FStr "user added");
                                      ("username", FVal (PStr u))] 201), db')).
  { unfold App.create_user, App.create_user_try.
    change (Py.get (credentials u pw) "username") with (Return (PStr u)).
    change (Py.get (credentials u pw) "password") with (Return (PStr pw)).
    cbn [bind truthy]. apply String.eqb_neq in Hu, Hp. rewrite Hu, Hp.
    cbn [negb orb bind]. rewrite Hc. reflexivity. }
  rewrite Hrun. simpl fst. simpl snd. split; [eexists; split; reflexivity|].
  split.
  - rewrite (login_verdict _ _ _ _ (check_after_create _ _ pw _ _ Hc)).
    now rewrite String.eqb_refl.
  - intros p. apply login_verdict. apply (check_after_create _ _ _ _ _ Hc).
Qed.

(** X10. After [POST /update-password] for a registered user, a login with
    the new password is answered 200; a login with another password, the
    old one among them, is answered 401, unless the hash of that password
    under the new salt is the new hash. *)
Theorem change_then_login (u new : string) (db : store) :
  u <> "" -> new <> "" -> User.find_user (PStr u) db <> None ->
  let db' := snd (App.update_password (new_credentials u new) db) in
  let salt := urandom (draws db) in
  answered (fst (App.update_password (new_credentials u new) db)) 201 /\
  App.login (credentials u new) db'
  = Return (Response [("message", FStr ("User " ++ u ++ " logged in successfully."))]
              200) /\
  forall p,
    App.login (credentials u p) db'
    = if (hash_password p salt =? hash_password new salt)%string
      then Return (Response
                     [("message", FStr ("User " ++ u ++ " logged in successfully."))]
                     200)
      else Return (Response [("error", FStr "Invalid username or password")] 401).
Proof.
  intros Hu Hp Hreg. cbv zeta.
  destruct (User.update_password (PStr u) (PStr new) db) as [db'|e] eqn:Hup.
  2:{ exfalso. unfold User.update_password in Hup.
      destruct (User.find_user (PStr u) db); [discriminate|congruence]. }
  assert (Hrun : App.update_password (new_credentials u new) db
                 = (Return (Response [("status", FStr "password changed");
                                      ("username", FVal (PStr u))] 201), db')).
  { unfold App.update_password, App.update_password_try.
    change (Py.get (new_credentials u new) "username") with (Return (PStr u)).
    change (Py.get (new_credentials u new) "newPassword") with (Return (PStr new)).
    cbn [bind truthy]. apply String.eqb_neq in Hu, Hp. rewrite Hu, Hp.
    cbn [negb orb bind]. rewrite Hup. reflexivity. }
  rewrite Hrun. simpl fst. simpl snd. split; [eexists; split; reflexivity|].
  split.
  - rewrite (login_verdict _ _ _ _ (check_after_update _ new new _ _ Hup)).
    now rewrite String.eqb_refl.
  - intros p. apply login_verdict. apply (check_after_update _ _ _ _ _ Hup).
Qed.

(** X11. Registering a username that is taken is answered 500 with the text of
    the exception of [User.create_user], and the database stays as it
    is. *)
Theorem register_twice (u pw : string) (db : store) :
  u <> "" -> pw <> "" -> User.find_user (PStr u) db <> None ->
  App.create_user (credentials u pw) db
  = (Return (Response [("error", FStr (str_exn (User.duplicate u)))] 500), db).
Proof.
  intros Hu Hp Hreg. unfold App.create_user, App.create_user_try.
  change (Py.get (credentials u pw) "username") with (Return (PStr u)).
  change (Py.get (credentials u pw) "password") with (Return (PStr pw)).
  cbn [bind truthy]. apply String.eqb_neq in Hu, Hp. rewrite Hu, Hp.
  cbn [negb orb bind]. unfold User.create_user. rewrite Hu, Hp.
  cbn [orb]. destruct (User.find_user (PStr u) db); [reflexivity|congruence].
Qed.

End Accounts.

Lemma register_then_login_alice :
  let db' := snd (@App.create_user checksum (credentials "alice" "pw1") empty_store) in
  let salt := @urandom checksum (draws empty_store) in
  answered (fst (@App.create_user checksum (credentials "alice" "pw1") empty_store))
    201 /\
  @App.login checksum (credentials "alice" "pw1") db'
  = Return (Response [("message", FStr "User alice logged in successfully.")] 200) /\
  forall p,
    @App.login checksum (credentials "alice" p) db'
    = if (@hash_password checksum p salt =? @hash_password checksum "pw1" salt)%string
      then Return (Response
                     [("message", FStr "User alice logged in successfully.")] 200)
      else Return (Response [("error", FStr "Invalid username or password")] 401).
Proof.
  apply (@register_then_login checksum "alice" "pw1" empty_store).
  - discriminate.
  - discriminate.
  - reflexivity.
Defined.

Lemma change_then_login_alice :
  let db' := snd (@App.update_password checksum (new_credentials "alice" "pw2")
                    alice_db) in
  let salt := @urandom checksum (draws alice_db) in
  answered (fst (@App.update_password checksum (new_credentials "alice" "pw2")
                   alice_db)) 201 /\
  @App.login checksum (credentials "alice" "pw2") db'
  = Return (Response [("message", FStr "User alice logged in successfully.")] 200) /\
  forall p,
    @App.login checksum (credentials "alice" p) db'
    = if (@hash_password checksum p salt =? @hash_password checksum "pw2" salt)%string
      then Return (Response
                     [("message", FStr "User alice logged in successfully.")] 200)
      else Return (Response [("error", FStr "Invalid username or password")] 401).
Proof.
  apply (@change_then_login checksum "alice" "pw2" alice_db); discriminate.
Defined.

Lemma register_twice_alice :
  App.create_user (credentials "alice" "other") alice_db
  = (Return (Response [("error", FStr (str_exn (User.duplicate "alice")))] 500),
     alice_db).
Proof.
  apply (register_twice "alice" "other" alice_db); discriminate.
Defined.

(** *** The invariant of the users table *)

Section AccountInvariant.
Context {P : Password}.

Lemma find_user_none (u : string) (db : store) :
  User.find_user (PStr u) db = None -> ~ In u (map user_name (users db)).
Proof.
  unfold User.find_user. intros Hf Hin.
  apply in_map_iff in Hin as (r & Hname & Hin).
  apply (find_none _ _ Hf) in Hin. simpl in Hin.
  rewrite Hname, String.eqb_refl in Hin. discriminate.
Qed.

Lemma put_user_names (r : user) (l : list user) :
  map user_name
    (map (fun r' => if (user_name r' =? user_name r)%string then r else r') l)
  = map user_name l.
Proof.
  induction l as [|a l IH]; simpl; [reflexivity|]. rewrite IH. f_equal.
  destruct (user_name a =? user_name r)%string eqn:Ha; [|reflexivity].
  apply String.eqb_eq in Ha. now rewrite Ha.
Qed.

(** X12. The handlers of the accounts keep the usernames distinct and leave
    the cart alone: [POST /create-account] adds at most one username,
    which was not there, and [POST /update-password] changes none. *)
Theorem account_handlers_keep_invariant (data : value) (db : store) :
  users_ok db ->
  (users_ok (snd (App.create_user data db)) /\
   games (snd (App.create_user data db)) = games db) /\
  (map user_name (users (snd (App.update_password data db)))
   = map user_name (users db) /\
   games (snd (App.update_password data db)) = games db).
Proof.
  intros Hnd. split.
  - unfold App.create_user.
    destruct (App.create_user_try data db) as [[r db']|e] eqn:Htry; simpl;
      [|auto].
    unfold App.create_user_try in Htry.
    destruct (Py.get data "username") as [u|]; simpl in Htry; [|discriminate].
    destruct (Py.get data "password") as [p|]; simpl in Htry; [|discriminate].
    destruct (negb (truthy u) || negb (truthy p)); simpl in Htry.
    + injection Htry as _ <-. auto.
    + destruct (User.create_user u p db) as [db1|] eqn:Hc; simpl in Htry;
        [|discriminate].
      injection Htry as _ <-.
      destruct u as [| | | | u | |]; try (destruct p; discriminate).
      destruct p as [| | | | p | |]; try discriminate.
      apply create_user_returns in Hc as (_ & _ & Hnew & ->).
      split; [|reflexivity]. unfold users_ok. simpl. rewrite map_app. simpl.
      apply (Permutation_NoDup (Permutation_cons_append _ _)).
      constructor; [|exact Hnd]. now apply find_user_none.
  - unfold App.update_password.
    destruct (App.update_password_try data db) as [u [[r db']|e]] eqn:Htry; simpl.
    + unfold App.update_password_try in Htry.
      destruct (Py.get data "username") as [v|]; [|discriminate].
      destruct (Py.get data "newPassword") as [p|]; simpl in Htry; [|discriminate].
      destruct (negb (truthy v) || negb (truthy p)); simpl in Htry.
      * injection Htry as _ _ <-. auto.
      * destruct (User.update_password v p db) as [db1|] eqn:Hup; simpl in Htry;
          [|discriminate].
        injection Htry as _ _ <-. unfold User.update_password in Hup.
        destruct (User.find_user v db) as [row|]; [|discriminate].
        destruct p; try discriminate. injection Hup as <-.
        split; [|reflexivity].
        exact (put_user_names (User (user_name row) _ _) (users db)).
    + now destruct (is_value_error e).
Qed.

End AccountInvariant.

Lemma account_handlers_keep_invariant_alice :
  (users_ok (snd (App.create_user (credentials "bob" "pw") alice_db)) /\
   games (snd (App.create_user (credentials "bob" "pw") alice_db)) = []) /\
  (map user_name (users (snd (App.update_password (credentials "bob" "pw") alice_db)))
   = ["alice"] /\
   games (snd (App.update_password (credentials "bob" "pw") alice_db)) = []).
Proof.
  apply (account_handlers_keep_invariant (credentials "bob" "pw") alice_db).
  unfold users_ok. simpl. constructor; [simpl; tauto|constructor].
Defined.

(** *** The id of the catalog *)

(** X13. [POST /add-game] stores the game under the id the catalog reports,
    not under the id of the request: when the two differ, deleting by
    the id of the request afterwards is answered 404 and the game stays
    in the cart. *)
Theorem add_game_stores_catalog_id
  (api : catalog) (data : value) (n : Z) (g : game) (db : store) :
  carries_id data n ->
  get_game_info api n = Return (Some g) ->
  game_id g <> n -> acceptable g = true ->
  in_cart (game_id g) db = false -> in_cart n db = false ->
  let db' := snd (App.add_game api data db) in
  answered (fst (App.add_game api data db)) 201 /\
  in_cart (game_id g) db' = true /\
  answered (fst (App.delete_game data db')) 404 /\
  snd (App.delete_game data db') = db'.
Proof.
  intros Hid Hinfo Hne Hok Hnew Hn. cbv zeta. destruct g as [id name price].
  simpl in Hne, Hnew.
  assert (Hc : Games.create_game id name price db
               = Return (Store (users db) (games db ++ [Game id name price])
                           (draws db))).
  { apply create_game_returns. auto. }
  unfold App.add_game. rewrite (add_game_with_id api _ _ db Hid), Hinfo.
  cbn [bind game_id game_name game_price]. rewrite Hc. cbn [bind fst snd].
  split; [eexists; split; reflexivity|].
  assert (Hstill : in_cart n (Store (users db) (games db ++ [Game id name price])
                                (draws db)) = false).
  { unfold in_cart in *. simpl. rewrite existsb_app, Hn. simpl.
    unfold Games.has_id. simpl. apply Z.eqb_neq in Hne. now rewrite Hne. }
  split.
  - unfold in_cart. simpl. rewrite existsb_app. simpl. unfold Games.has_id at 2.
    simpl. now rewrite Z.eqb_refl, Bool.orb_true_r.
  - rewrite (delete_game_with_id _ _ _ Hid), Hstill. simpl.
    split; [eexists; split; reflexivity|reflexivity].
Qed.

Lemma add_game_stores_catalog_id_mirror :
  let mirror := {| search_for_games := fun _ => Return [];
                   get_game_info := fun _ => Return (Some chess) |} in
  let db' := snd (App.add_game mirror (with_id (PInt 7)) empty_store) in
  answered (fst (App.add_game mirror (with_id (PInt 7)) empty_store)) 201 /\
  in_cart (game_id chess) db' = true /\
  answered (fst (App.delete_game (with_id (PInt 7)) db')) 404 /\
  snd (App.delete_game (with_id (PInt 7)) db') = db'.
Proof.
  apply (add_game_stores_catalog_id
           {| search_for_games := fun _ => Return [];
              get_game_info := fun _ => Return (Some chess) |}
           (with_id (PInt 7)) 7 chess empty_store).
  - exists (PInt 7). repeat split.
  - reflexivity.
  - discriminate.
  - reflexivity.
  - reflexivity.
  - reflexivity.
Defined.

(** *** The id 0 *)

Lemma acceptable_positive (g : game) : acceptable g = true -> 0 < game_id g.
Proof.
  unfold acceptable. intros H. apply Bool.negb_true_iff, Bool.orb_false_iff in H.
  destruct H as (H & _). now apply Z.leb_gt in H.
Qed.

(** A cart that keeps its invariant holds no game under the id 0. *)
Lemma cart_ok_no_zero (db : store) : cart_ok db -> in_cart 0 db = false.
Proof.
  intros (_ & Hall). destruct (in_cart 0 db) eqn:Hin; [|reflexivity].
  unfold in_cart in Hin. apply existsb_exists in Hin as (g & Hg & Hid).
  rewrite Forall_forall in Hall. apply Hall, acceptable_positive in Hg.
  unfold Games.has_id in Hid. apply Z.eqb_eq in Hid. lia.
Qed.

Section IdZero.
Context {P : Password}.

Lemma add_game_keeps_cart_ok (api : catalog) (data : value) (db : store) :
  cart_ok db -> cart_ok (snd (App.add_game api data db)).
Proof.
  intros (Hnd & Hall).
  destruct (add_game_store api data db) as [-> | (g & Hok & Hnew & ->)].
  - split; assumption.
  - split; simpl.
    + rewrite map_app. simpl.
      apply (Permutation_NoDup (Permutation_cons_append _ _)).
      constructor; [|assumption]. rewrite <- in_cart_spec. now rewrite Hnew.
    + apply Forall_app. split; [assumption|]. now repeat constructor.
Qed.

Lemma delete_game_keeps_cart_ok (data : value) (db : store) :
  cart_ok db -> cart_ok (snd (App.delete_game data db)).
Proof.
  intros (Hnd & Hall).
  destruct (delete_game_store data db) as [-> | (n & ->)].
  - split; assumption.
  - split; simpl.
    + now apply distinct_ids_filter.
    + apply Forall_forall. intros g Hg. apply filter_In in Hg as (Hg & _).
      rewrite Forall_forall in Hall. now apply Hall.
Qed.

Lemma create_user_keeps_cart (data : value) (db : store) :
  games (snd (App.create_user data db)) = games db.
Proof.
  unfold App.create_user.
  destruct (App.create_user_try data db) as [[r db']|e] eqn:Htry; simpl;
    [|reflexivity].
  unfold App.create_user_try in Htry.
  destruct (Py.get data "username") as [u|]; simpl in Htry; [|discriminate].
  destruct (Py.get data "password") as [p|]; simpl in Htry; [|discriminate].
  destruct (negb (truthy u) || negb (truthy p)); simpl in Htry.
  - now injection Htry as _ <-.
  - destruct (User.create_user u p db) as [db1|] eqn:Hc; simpl in Htry;
      [|discriminate].
    injection Htry as _ <-. unfold User.create_user in Hc.
    destruct u as [| | | | u | |]; try (destruct p; discriminate).
    destruct p as [| | | | p | |]; try discriminate.
    destruct ((u =? "") || (p =? ""))%string; [discriminate|].
    destruct (User.find_user (PStr u) db); [discriminate|].
    now injection Hc as <-.
Qed.

Lemma update_password_keeps_cart (data : value) (db : store) :
  games (snd (App.update_password data db)) = games db.
Proof.
  unfold App.update_password.
  destruct (App.update_password_try data db) as [u [[r db']|e]] eqn:Htry; simpl.
  - unfold App.update_password_try in Htry.
    destruct (Py.get data "username") as [v|]; [|discriminate].
    destruct (Py.get data "newPassword") as [p|]; simpl in Htry; [|discriminate].
    destruct (negb (truthy v) || negb (truthy p)); simpl in Htry.
    + now injection Htry as _ _ <-.
    + destruct (User.update_password v p db) as [db1|] eqn:Hup; simpl in Htry;
        [|discriminate].
      injection Htry as _ _ <-. unfold User.update_password in Hup.
      destruct (User.find_user v db); [|discriminate].
      destruct p; try discriminate. now injection Hup as <-.
  - now destruct (is_value_error e).
Qed.

Lemma serve_keeps_cart_ok (api : catalog) (r : request) (db : store) :
  cart_ok db -> cart_ok (serve api r db).
Proof.
  intros Hok. destruct r; simpl; try assumption.
  - unfold cart_ok. now rewrite create_user_keeps_cart.
  - unfold cart_ok. now rewrite update_password_keeps_cart.
  - now apply add_game_keeps_cart_ok.
  - now apply delete_game_keeps_cart_ok.
Qed.

Lemma serve_all_keeps_cart_ok (steps : list (catalog * request)) (db : store) :
  cart_ok db -> cart_ok (serve_all steps db).
Proof.
  unfold serve_all. revert db.
  induction steps as [|step steps IH]; intros db Hok; simpl; [assumption|].
  apply IH. now apply serve_keeps_cart_ok.
Qed.

(** C9. An id that is missing or falsy (0, the empty string, null, false)
    is answered with 400 by [POST /add-game] and [DELETE /delete-game],
    whatever the catalog and the cart, and the database stays as it is.
    No game with the id 0 is ever added: a row that [POST /add-game] adds
    has a positive id.  None is ever deleted, for none is there: a cart
    that keeps its invariant holds no game under the id 0, before and
    after the two handlers, and so does the cart after any sequence of
    requests that starts from the empty database. *)
Theorem falsy_id_rejected :
  (forall api data v db,
      Py.get data "id" = Return v -> truthy v = false ->
      App.add_game api data db
      = (Return (Response [("error", FStr "An id must be specified.")] 400), db) /\
      App.delete_game data db
      = (Return (Response [("error", FStr "An id must be specified.")] 400), db)) /\
  (forall api data db g,
      In g (games (snd (App.add_game api data db))) -> ~ In g (games db) ->
      0 < game_id g) /\
  (forall api data db,
      cart_ok db ->
      in_cart 0 db = false /\
      in_cart 0 (snd (App.add_game api data db)) = false /\
      in_cart 0 (snd (App.delete_game data db)) = false) /\
  (forall steps,
      cart_ok (serve_all steps empty_store) /\
      in_cart 0 (serve_all steps empty_store) = false).
Proof.
  split; [|split; [|split]].
  - intros api data v db Hget Hfalsy.
    unfold App.add_game, App.add_game_try, App.delete_game, App.delete_game_try.
    rewrite Hget. simpl. rewrite Hfalsy. simpl. split; [reflexivity|].
    destruct v as [| b | n | [q shown | neg |] | s | items | items];
      reflexivity.
  - intros api data db g Hin Hnew.
    destruct (add_game_store api data db) as [Hsame | (g' & Hok & _ & Hadd)].
    + rewrite Hsame in Hin. contradiction.
    + rewrite Hadd in Hin. simpl in Hin. apply in_app_iff in Hin as [Hin|[<-|[]]].
      * contradiction.
      * now apply acceptable_positive.
  - intros api data db Hok. split; [now apply cart_ok_no_zero|]. split.
    + now apply cart_ok_no_zero, add_game_keeps_cart_ok.
    + now apply cart_ok_no_zero, delete_game_keeps_cart_ok.
  - intros steps.
    assert (Hok : cart_ok (serve_all steps empty_store)).
    { apply serve_all_keeps_cart_ok. split; constructor. }
    split; [exact Hok|now apply cart_ok_no_zero].
Qed.

End IdZero.

Lemma falsy_id_rejected_zero :
  App.add_game shelf (with_id (PInt 0)) empty_store
  = (Return (Response [("error", FStr "An id must be specified.")] 400), empty_store) /\
  App.delete_game (with_id (PInt 0)) empty_store
  = (Return (Response [("error", FStr "An id must be specified.")] 400), empty_store).
Proof.
  apply (proj1 falsy_id_rejected shelf (with_id (PInt 0)) (PInt 0) empty_store);
    reflexivity.
Defined.
